(** * NdbTCP: address resolution, address formatting, endpoint strings
      and the socket hang-up probe of storage/ndb/src/common/portlib/NdbTCP.cpp

    The C code works on caller-supplied character buffers and on pointers
    into NUL-terminated strings.  The embedding keeps that level: an
    object in memory is a list of cells, a pointer into it is an offset,
    and every access outside the object is a fault.  Functions of the
    operating system (getaddrinfo, getnameinfo, poll, select, getsockopt)
    are parameters of the functions that call them. *)

From Stdlib Require Import ZArith Lia Bool Arith Ascii String List.
From Stdlib Require Import Strings.Byte.
Import ListNotations.

Set Implicit Arguments.

(** ** Faults and the result monad *)

Inductive fault : Type :=
| OobRead (off : nat)    (* a load at offset [off], outside the object *)
| OobWrite (off : nat)   (* a store reaching offset [off], outside the object *)
| BadCast                (* a sockaddr read through the wrong struct type *)
| AssertFailed.          (* assert() of a debug build *)

Inductive result (A : Type) : Type :=
| Ok (a : A)
| Fault (f : fault).

Arguments Ok {A} a.
Arguments Fault {A} f.

Definition bind {A B : Type} (m : result A) (k : A -> result B) : result B :=
  match m with
  | Ok a => k a
  | Fault f => Fault f
  end.

Notation "x <- m ;; k" := (bind m (fun x => k))
  (at level 61, m at next level, right associativity).

(** ** Objects in memory *)

Definition NUL : ascii := Ascii.zero.

Definition lit (s : string) : list ascii := list_ascii_of_string s.

(** A string literal as it lies in memory: its characters and the
    terminator, nothing behind it. *)
Definition c_lit (s : string) : list ascii := lit s ++ [NUL].

Definition load {A : Type} (m : list A) (p : nat) : result A :=
  match nth_error m p with
  | Some c => Ok c
  | None => Fault (OobRead p)
  end.

Definition store {A : Type} (m : list A) (p : nat) (cells : list A)
  : result (list A) :=
  if p + length cells <=? length m
  then Ok (firstn p m ++ cells ++ skipn (p + length cells) m)
  else Fault (OobWrite (length m)).

(** The string a buffer holds: the characters before its first NUL. *)
Fixpoint c_str (m : list ascii) : option (list ascii) :=
  match m with
  | [] => None
  | c :: m' =>
      if Ascii.eqb c NUL then Some []
      else match c_str m' with
           | Some s => Some (c :: s)
           | None => None
           end
  end.

Definition no_nul (s : list ascii) : Prop := ~ In NUL s.

(** ** <string.h> *)

Fixpoint strlen_from (l : list ascii) (p : nat) : result nat :=
  match l with
  | [] => Fault (OobRead p)
  | c :: l' =>
      if Ascii.eqb c NUL then Ok 0
      else n <- strlen_from l' (S p) ;; Ok (S n)
  end.

Definition strlen (m : list ascii) (p : nat) : result nat :=
  strlen_from (skipn p m) p.

Fixpoint strchr_from (l : list ascii) (c : ascii) (p : nat)
  : result (option nat) :=
  match l with
  | [] => Fault (OobRead p)
  | x :: l' =>
      if Ascii.eqb x c then Ok (Some p)
      else if Ascii.eqb x NUL then Ok None
      else strchr_from l' c (S p)
  end.

(** [strchr m p c]: the offset of the first [c] at or after offset [p],
    [None] for a null pointer. *)
Definition strchr (m : list ascii) (p : nat) (c : ascii)
  : result (option nat) :=
  strchr_from (skipn p m) c p.

(** The [n] cells strncpy writes: the source up to its terminator, then
    NUL padding. *)
Fixpoint strncpy_cells (l : list ascii) (p n : nat) {struct n}
  : result (list ascii) :=
  match n with
  | 0 => Ok []
  | S n' =>
      match l with
      | [] => Fault (OobRead p)
      | c :: l' =>
          if Ascii.eqb c NUL then Ok (repeat NUL (S n'))
          else cells <- strncpy_cells l' (S p) n' ;; Ok (c :: cells)
      end
  end.

Definition strncpy (dst src : list ascii) (p n : nat) : result (list ascii) :=
  cells <- strncpy_cells (skipn p src) p n ;;
  store dst 0 cells.

Fixpoint strncmp_from (s1 s2 : list ascii) (p n : nat) {struct n} : result Z :=
  match n with
  | 0 => Ok 0%Z
  | S n' =>
      match s1, s2 with
      | [], _ => Fault (OobRead p)
      | _, [] => Fault (OobRead p)
      | c1 :: s1', c2 :: s2' =>
          if Ascii.eqb c1 c2
          then if Ascii.eqb c1 NUL then Ok 0%Z
               else strncmp_from s1' s2' (S p) n'
          else Ok (Z.of_nat (nat_of_ascii c1) - Z.of_nat (nat_of_ascii c2))%Z
      end
  end.

(** [strncmp s1 s2 n] on two objects read from their first cell. *)
Definition strncmp (s1 s2 : list ascii) (n : nat) : result Z :=
  strncmp_from s1 s2 0 n.

Definition memmove {A : Type} (m : list A) (dst src n : nat)
  : result (list A) :=
  if src + n <=? length m
  then store m dst (firstn n (skipn src m))
  else Fault (OobRead (length m)).

(** ** Ndb_split_string_address_port *)

Definition split_result : Type := (Z * list ascii * list ascii)%type.

Definition Ndb_split_string_address_port
  (arg host : list ascii) (hostlen : nat) (serv : list ascii) (servlen : nat)
  : result split_result :=
  c0 <- load arg 0 ;;
  if Ascii.eqb c0 "[" then
    check_closing_bracket <- strchr arg 0 "]" ;;
    match check_closing_bracket with
    | None => Ok ((-1)%Z, host, serv)
    | Some check_closing_bracket =>
        let port_colon := check_closing_bracket + 1 in
        pc <- load arg port_colon ;;
        if Ascii.eqb pc ":" || Ascii.eqb pc NUL then
          let copy_bytes := port_colon - 0 - 2 in
          truncate <-
            (if hostlen <=? copy_bytes then Ok true
             else n <- strlen arg (port_colon + 1) ;; Ok (servlen <=? n)) ;;
          if (truncate : bool) then Ok ((-1)%Z, host, serv)
          else
            first_colon <- strchr arg 1 ":" ;;
            match first_colon with
            | None => Ok ((-1)%Z, host, serv)
            | Some first_colon =>
                if port_colon <=? first_colon then Ok ((-1)%Z, host, serv)
                else
                  host <- strncpy host arg 1 copy_bytes ;;
                  host <- store host copy_bytes [NUL] ;;
                  if Ascii.eqb pc ":" then
                    serv <- strncpy serv arg (port_colon + 1) servlen ;;
                    Ok (0%Z, host, serv)
                  else
                    serv <- store serv 0 [NUL] ;;
                    Ok (0%Z, host, serv)
            end
        else Ok ((-1)%Z, host, serv)
    end
  else
    port_colon <- strchr arg 0 ":" ;;
    single <-
      match port_colon with
      | None => Ok false
      | Some port_colon =>
          second <- strchr arg (port_colon + 1) ":" ;;
          Ok (match second with None => true | Some _ => false end)
      end ;;
    match port_colon, (single : bool) with
    | Some port_colon, true =>
        let copy_bytes := port_colon - 0 in
        truncate <-
          (if hostlen <=? copy_bytes then Ok true
           else n <- strlen arg (port_colon + 1) ;; Ok (servlen <=? n)) ;;
        if (truncate : bool) then Ok ((-1)%Z, host, serv)
        else
          host <- strncpy host arg 0 copy_bytes ;;
          host <- store host (port_colon - 0) [NUL] ;;
          serv <- strncpy serv arg (port_colon + 1) servlen ;;
          serv <- store serv (servlen - 1) [NUL] ;;
          Ok (0%Z, host, serv)
    | _, _ =>
        n <- strlen arg 0 ;;
        if hostlen <=? n then Ok ((-1)%Z, host, serv)
        else
          host <- strncpy host arg 0 hostlen ;;
          host <- store host (hostlen - 1) [NUL] ;;
          serv <- store serv 0 [NUL] ;;
          Ok (0%Z, host, serv)
    end.

(** ** Ndb_combine_address_port *)

(** The characters [%s] prints: the string at the start of the object. *)
Fixpoint read_str (m : list ascii) (p : nat) : result (list ascii) :=
  match m with
  | [] => Fault (OobRead p)
  | c :: m' =>
      if Ascii.eqb c NUL then Ok []
      else s <- read_str m' (S p) ;; Ok (c :: s)
  end.

Definition digit (d : Z) : ascii := ascii_of_nat (48 + Z.to_nat d).

Fixpoint print_digits (fuel : nat) (n : Z) (acc : list ascii) : list ascii :=
  match fuel with
  | 0 => acc
  | S fuel' =>
      let acc' := digit (n mod 10) :: acc in
      if (n / 10 =? 0)%Z then acc' else print_digits fuel' (n / 10) acc'
  end.

(** A Uint16 argument as the callee sees it, and what [%d] prints for
    it: the value is promoted to int and is never negative; five digits
    are enough below 65536. *)
Definition Uint16 (port : Z) : Z := (port mod 65536)%Z.

Definition print_d (port : Z) : list ascii := print_digits 5 (Uint16 port) [].

(** snprintf with the already formatted text: at most [bufsize - 1]
    characters and a terminator, nothing at all when [bufsize] is 0. *)
Definition snprintf (buf : list ascii) (bufsize : nat) (text : list ascii)
  : result (list ascii) :=
  if bufsize =? 0 then Ok buf
  else store buf 0 (firstn (bufsize - 1) text ++ [NUL]).

(** [host] is [None] for a null pointer, else the object it points to. *)
Definition Ndb_combine_address_port
  (buf : list ascii) (bufsize : nat) (host : option (list ascii)) (port : Z)
  : result (list ascii) :=
  match host with
  | None => snprintf buf bufsize (lit "*:" ++ print_d port)
  | Some host =>
      colon <- strchr host 0 ":" ;;
      h <- read_str host 0 ;;
      match colon with
      | None => snprintf buf bufsize (h ++ lit ":" ++ print_d port)
      | Some _ => snprintf buf bufsize (lit "[" ++ h ++ lit "]:" ++ print_d port)
      end
  end.

(** ** Socket addresses *)

(** Values of the Linux headers; the code only compares them. *)
Definition AF_UNSPEC : Z := 0.
Definition AF_INET : Z := 2.
Definition AF_INET6 : Z := 10.
Definition AI_ADDRCONFIG : Z := 32.
Definition SOCK_STREAM : Z := 1.
Definition IPPROTO_TCP : Z := 6.
Definition NI_NUMERICHOST : Z := 1.
Definition EAI_NONAME : Z := -2.
Definition EAI_OVERFLOW : Z := -12.

(** [s_addr]: the four address bytes as they lie in memory. *)
Record in_addr : Type := { s_addr : list byte }.

(** [s6_addr]: the sixteen address bytes. *)
Record in6_addr : Type := { s6_addr : list byte }.

Record sockaddr_in : Type := {
  sin_family : Z;
  sin_port : Z;
  sin_addr : in_addr
}.

Record sockaddr_in6 : Type := {
  sin6_family : Z;
  sin6_port : Z;
  sin6_flowinfo : Z;
  sin6_addr : in6_addr;
  sin6_scope_id : Z
}.

(** What a [struct sockaddr *] points to. *)
Inductive sockaddr : Type :=
| SockaddrIn (sa : sockaddr_in)
| SockaddrIn6 (sa : sockaddr_in6).

(** A node of the list getaddrinfo returns; [ai_next] is the tail of the
    Rocq list, and a pointer to a node is the list that starts there
    ([[]] for the null pointer). *)
Record addrinfo : Type := {
  ai_family : Z;
  ai_socktype : Z;
  ai_protocol : Z;
  ai_addr : sockaddr
}.

Record addrinfo_hints : Type := {
  hint_flags : Z;
  hint_family : Z;
  hint_socktype : Z;
  hint_protocol : Z
}.

Definition as_sockaddr_in (sa : sockaddr) : result sockaddr_in :=
  match sa with
  | SockaddrIn a => Ok a
  | SockaddrIn6 _ => Fault BadCast
  end.

Definition as_sockaddr_in6 (sa : sockaddr) : result sockaddr_in6 :=
  match sa with
  | SockaddrIn6 a => Ok a
  | SockaddrIn _ => Fault BadCast
  end.

Definition memset {A : Type} (m : list A) (p : nat) (v : A) (n : nat)
  : result (list A) :=
  store m p (repeat v n).

Definition memcpy {A : Type} (dst : list A) (p : nat) (src : list A) (n : nat)
  : result (list A) :=
  if n <=? length src then store dst p (firstn n src)
  else Fault (OobRead (length src)).

Definition Ndb_make_ipv6_from_ipv4 (dst : sockaddr_in6) (src : sockaddr_in)
  : result sockaddr_in6 :=
  a <- memset (s6_addr (sin6_addr dst)) 0 x00 10 ;;
  a <- memset a 10 xff 2 ;;
  a <- memcpy a 12 (s_addr (sin_addr src)) 4 ;;
  Ok {| sin6_family := AF_INET6;
        sin6_port := sin6_port dst;
        sin6_flowinfo := sin6_flowinfo dst;
        sin6_addr := {| s6_addr := a |};
        sin6_scope_id := sin6_scope_id dst |}.

(** ** get_preferred_address *)

Definition is_null {A : Type} (p : list A) : bool :=
  match p with
  | [] => true
  | _ :: _ => false
  end.

(** The while loop, from the state ([ai_list], [ai_pref]); it returns
    [ai_pref] and the value of [ai_list] when the loop is left. *)
Fixpoint preferred_scan (ai_list ai_pref : list addrinfo)
  : result (list addrinfo * list addrinfo) :=
  match ai_list with
  | [] => Ok (ai_pref, [])
  | ai :: ai_next =>
      if (ai_family ai =? AF_INET)%Z then
        Ok (ai_list, ai_list)
      else if is_null ai_pref && (ai_family ai =? AF_INET6)%Z then
        addr <- as_sockaddr_in6 (ai_addr ai) ;;
        if (sin6_scope_id addr =? 0)%Z
        then preferred_scan ai_next ai_list
        else preferred_scan ai_next ai_pref
      else preferred_scan ai_next ai_pref
  end.

Definition get_preferred_address (ai_list : list addrinfo)
  : result (list addrinfo) :=
  st <- preferred_scan ai_list [] ;;
  Ok (fst st).

(** ** get_in6_addr and Ndb_getInAddr6 *)

Section Resolver.

(** The content of the local variable [addr6] before it is written. *)
Variable addr6 : sockaddr_in6.

Definition get_in6_addr (dst : in6_addr) (src : list addrinfo)
  : result (Z * in6_addr) :=
  match src with
  | [] => Ok ((-1)%Z, dst)
  | ai :: _ =>
      addr6_ptr <-
        (if (ai_family ai =? AF_INET)%Z then
           addr4_ptr <- as_sockaddr_in (ai_addr ai) ;;
           addr6 <- Ndb_make_ipv6_from_ipv4 addr6 addr4_ptr ;;
           Ok (Some addr6)
         else if (ai_family ai =? AF_INET6)%Z then
           a <- as_sockaddr_in6 (ai_addr ai) ;;
           Ok (Some a)
         else Ok None) ;;
      match addr6_ptr with
      | None => Ok ((-1)%Z, dst)
      | Some addr6_ptr =>
          d <- memcpy (s6_addr dst) 0 (s6_addr (sin6_addr addr6_ptr)) 16 ;;
          Ok (0%Z, {| s6_addr := d |})
      end
  end.

(** The resolver of the operating system: its return code and the list
    it hands out. *)
Variable getaddrinfo : list ascii -> addrinfo_hints -> Z * list addrinfo.

Definition resolver_hints : addrinfo_hints :=
  {| hint_flags := AI_ADDRCONFIG;
     hint_family := AF_UNSPEC;
     hint_socktype := SOCK_STREAM;
     hint_protocol := IPPROTO_TCP |}.

(** freeaddrinfo, called after the copy, releases the list and leaves
    the result as it is. *)
Definition Ndb_getInAddr6 (dst : in6_addr) (address : list ascii)
  : result (Z * in6_addr) :=
  let '(rc, ai_list) := getaddrinfo address resolver_hints in
  if negb (rc =? 0)%Z then Ok ((-1)%Z, dst)
  else
    ai_pref <- get_preferred_address ai_list ;;
    get_in6_addr dst ai_pref.

End Resolver.

(** ** Ndb_inet_ntop *)

Inductive flow : Type :=
| Return (dst : list ascii)
| Break (dst : list ascii).

Section Formatter.

(** getnameinfo with a null service buffer: from the socket address, the
    host buffer, its size and the flags to the return code and the host
    buffer afterwards. *)
Variable getnameinfo : sockaddr -> list ascii -> nat -> Z -> Z * list ascii.

Definition Ndb_inet_ntop
  (af : Z) (src : list byte) (dst : list ascii) (dst_size : nat)
  : result (list ascii) :=
  if dst_size =? 0 then Fault AssertFailed
  else
    f <-
      (if (af =? AF_INET)%Z then
         a <- memcpy (repeat x00 4) 0 src 4 ;;
         let sa := {| sin_family := AF_INET;
                      sin_port := 0;
                      sin_addr := {| s_addr := a |} |} in
         let '(ret, dst) :=
           getnameinfo (SockaddrIn sa) dst dst_size NI_NUMERICHOST in
         if negb (ret =? 0)%Z then Ok (Break dst) else Ok (Return dst)
       else if (af =? AF_INET6)%Z then
         a <- memcpy (repeat x00 16) 0 src 16 ;;
         let sa := {| sin6_family := AF_INET6;
                      sin6_port := 0;
                      sin6_flowinfo := 0;
                      sin6_addr := {| s6_addr := a |};
                      sin6_scope_id := 0 |} in
         let '(ret, dst) :=
           getnameinfo (SockaddrIn6 sa) dst dst_size NI_NUMERICHOST in
         let mapped_prefix := c_lit "::ffff:" in
         mapped_prefix_len <- strlen mapped_prefix 0 ;;
         cmp <- strncmp mapped_prefix dst mapped_prefix_len ;;
         dst <-
           (if (cmp =? 0)%Z then
              n <- strlen dst 0 ;;
              memmove dst 0 mapped_prefix_len (n - mapped_prefix_len + 1)
            else Ok dst) ;;
         if negb (ret =? 0)%Z then Ok (Break dst) else Ok (Return dst)
       else Ok (Break dst)) ;;
    match f with
    | Return dst => Ok dst
    | Break dst =>
        dst <- strncpy dst (c_lit "null") 0 dst_size ;;
        store dst (dst_size - 1) [NUL]
    end.

End Formatter.

(** ** Ndb_check_socket_hup *)

Definition POLLIN : Z := 1.
Definition POLLOUT : Z := 4.
Definition POLLERR : Z := 8.
Definition POLLHUP : Z := 16.
Definition POLLNVAL : Z := 32.
Definition SOL_SOCKET : Z := 1.
Definition SO_ERROR : Z := 4.

Record ndb_socket_t : Type := { fd : Z }.

Record pollfd : Type := {
  pfd_fd : Z;
  events : Z;
  revents : Z
}.

Definition fd_set : Type := list Z.

Definition FD_ZERO : fd_set := [].

(** FD_SETSIZE of the headers: 1024 in <sys/select.h>, 64 in
    <winsock2.h>. *)
Definition FD_SETSIZE (WIN32 : bool) : Z := if WIN32 then 64%Z else 1024%Z.

Definition in_fd_set_range (d : Z) : bool :=
  (0 <=? d)%Z && (d <? FD_SETSIZE false)%Z.

(** FD_SET of the headers.  The POSIX macro sets bit [d] in an array of
    FD_SETSIZE bits and is undefined for a descriptor outside it: a
    store outside the set (the fault names the descriptor, 0 for a
    negative one).  The Winsock macro appends the socket to an
    array of FD_SETSIZE sockets, unless it is there already or the array
    is full. *)
Definition FD_SET (WIN32 : bool) (d : Z) (set : fd_set) : result fd_set :=
  if WIN32 then
    Ok (if existsb (Z.eqb d) set
           || (FD_SETSIZE true <=? Z.of_nat (length set))%Z
        then set else set ++ [d])
  else if in_fd_set_range d then Ok (d :: set)
  else Fault (OobWrite (Z.to_nat d)).

(** FD_ISSET of the headers: a membership test under Winsock, the test
    of bit [d] under POSIX, undefined outside the set. *)
Definition FD_ISSET (WIN32 : bool) (d : Z) (set : fd_set) : result bool :=
  if WIN32 then Ok (existsb (Z.eqb d) set)
  else if in_fd_set_range d then Ok (existsb (Z.eqb d) set)
  else Fault (OobRead (Z.to_nat d)).

(** Modelled from the spec: ndb_socket_get_native, the portable accessor
    of the descriptor of a Socket Handle; its header is not among the
    sources. *)
Definition ndb_socket_get_native (s : ndb_socket_t) : Z := fd s.

Definition my_FD_SET (WIN32 : bool) (sock : ndb_socket_t) (set : fd_set)
  : result fd_set :=
  FD_SET WIN32 (ndb_socket_get_native sock) set.

Definition my_FD_ISSET (WIN32 : bool) (sock : ndb_socket_t) (set : fd_set)
  : result bool :=
  FD_ISSET WIN32 (ndb_socket_get_native sock) set.

(** Under _WIN32 the socket is not looked at. *)
Definition ndb_socket_nfds (WIN32 : bool) (s : ndb_socket_t) (nfds : Z) : Z :=
  if WIN32 then nfds
  else if (fd s >? nfds)%Z then fd s else nfds.

Section Probe.

(** poll on an array of one entry with its timeout: the return code and
    the entry afterwards. *)
Variable poll : pollfd -> Z -> Z * pollfd.

(** select with its timeout: the return code and the three sets
    afterwards. *)
Variable select :
  Z -> fd_set -> fd_set -> fd_set -> Z -> Z * (fd_set * fd_set * fd_set).

(** getsockopt for an int option: the return code and the int. *)
Variable ndb_getsockopt : ndb_socket_t -> Z -> Z -> Z -> Z * Z.

(** The body under HAVE_POLL. *)
Definition Ndb_check_socket_hup_poll (sock : ndb_socket_t) : Z :=
  let pfd := {| pfd_fd := fd sock;
                events := Z.lor (Z.lor (Z.lor POLLHUP POLLIN) POLLOUT) POLLNVAL;
                revents := 0 |} in
  let '(r, pfd) := poll pfd 0 in
  if negb (Z.land (revents pfd) (Z.lor POLLHUP POLLERR) =? 0)%Z then 1%Z
  else 0%Z.

(** The body without HAVE_POLL. *)
Definition Ndb_check_socket_hup_select (WIN32 : bool) (sock : ndb_socket_t)
  : result Z :=
  let tv := 0%Z in
  readfds <- my_FD_SET WIN32 sock FD_ZERO ;;
  writefds <- my_FD_SET WIN32 sock FD_ZERO ;;
  errorfds <- my_FD_SET WIN32 sock FD_ZERO ;;
  let '(rc, (readfds, writefds, errorfds)) :=
    select (ndb_socket_nfds WIN32 sock 0 + 1)%Z readfds writefds errorfds tv in
  if (rc <? 0)%Z then Ok 1%Z
  else
    flagged <- my_FD_ISSET WIN32 sock errorfds ;;
    if (flagged : bool) then Ok 1%Z
    else
      let s_err := 0%Z in
      let '(rc, s_err) := ndb_getsockopt sock SOL_SOCKET SO_ERROR s_err in
      if negb (rc =? 0)%Z then Ok 1%Z
      else if negb (s_err =? 0)%Z then Ok 1%Z
      else Ok 0%Z.

(** The function under the two build switches that shape it. *)
Definition Ndb_check_socket_hup (HAVE_POLL WIN32 : bool) (sock : ndb_socket_t)
  : result Z :=
  if HAVE_POLL then Ok (Ndb_check_socket_hup_poll sock)
  else Ndb_check_socket_hup_select WIN32 sock.

End Probe.

(** ** Vocabulary of the statements *)

(** The family tag of a node says which struct its address is. *)
Definition wf_addrinfo (ai : addrinfo) : Prop :=
  (ai_family ai = AF_INET -> exists sa, ai_addr ai = SockaddrIn sa) /\
  (ai_family ai = AF_INET6 -> exists sa, ai_addr ai = SockaddrIn6 sa).

Definition zero_scope_ipv6 (ai : addrinfo) : bool :=
  (ai_family ai =? AF_INET6)%Z &&
  match ai_addr ai with
  | SockaddrIn6 sa => (sin6_scope_id sa =? 0)%Z
  | SockaddrIn _ => false
  end.

Definition colons (s : list ascii) : nat := count_occ ascii_dec s ":"%char.

Fixpoint text_before (c : ascii) (s : list ascii) : list ascii :=
  match s with
  | [] => []
  | x :: s' => if Ascii.eqb x c then [] else x :: text_before c s'
  end.

Fixpoint text_after (c : ascii) (s : list ascii) : list ascii :=
  match s with
  | [] => []
  | x :: s' => if Ascii.eqb x c then s' else text_after c s'
  end.

Definition has (c : ascii) (s : list ascii) : bool :=
  existsb (Ascii.eqb c) s.

Definition fits (hostlen servlen : nat) (host service : list ascii)
  : option (list ascii * list ascii) :=
  if (length host <? hostlen) && (length service <? servlen)
  then Some (host, service)
  else None.

(** The first parsing rule as the specification words it: the host is
    the text strictly between '[' and ']' and must hold a colon, the
    service is what follows a ':' after ']', or is empty when the string
    ends after ']'; any other character there, a missing ']', or a piece
    that does not fit its buffer is an error. *)
Definition spec_split_bracket (s : list ascii) (hostlen servlen : nat)
  : option (list ascii * list ascii) :=
  match s with
  | [] => None
  | c0 :: t =>
      if negb (Ascii.eqb c0 "[") then None
      else if negb (has "]" t) then None
      else
        let host := text_before "]" t in
        if negb (has ":" host) then None
        else
          match text_after "]" t with
          | [] => fits hostlen servlen host []
          | c :: p =>
              if Ascii.eqb c ":" then fits hostlen servlen host p else None
          end
  end.

(** What a call delivers, against what the specification asks for: the
    two strings in the buffers and 0, or -1 and the buffers as they
    were. *)
Definition delivers
  (r : result split_result) (asked : option (list ascii * list ascii))
  (host serv : list ascii) : Prop :=
  match asked with
  | Some (h, p) =>
      exists host' serv',
        r = Ok (0%Z, host', serv') /\
        c_str host' = Some h /\
        c_str serv' = Some p
  | None => r = Ok ((-1)%Z, host, serv)
  end.

(** The sentinel in a buffer of capacity [n]: "null" cut to [n - 1]
    characters, and NUL up to the capacity. *)
Definition null_sentinel (n : nat) : list ascii :=
  firstn (n - 1) (lit "null") ++ repeat NUL (n - Nat.min (n - 1) 4).

(** What Ndb_combine_address_port is to render. *)
Definition endpoint_text (host : option (list ascii)) (port : Z)
  : list ascii :=
  match host with
  | None => lit "*:" ++ print_d port
  | Some h =>
      if has ":" h then lit "[" ++ h ++ lit "]:" ++ print_d port
      else h ++ lit ":" ++ print_d port
  end.

(** The IPv4-mapped address of four address bytes. *)
Definition v4mapped (a : list byte) : list byte :=
  repeat x00 10 ++ [xff; xff] ++ a.

(** ** Collaborators used to run the code on concrete inputs *)

(** An output buffer of [n] cells with stale content. *)
Definition buf (n : nat) : list ascii := repeat "x"%char n.

Fixpoint bytes_eqb (a b : list byte) : bool :=
  match a, b with
  | [], [] => true
  | x :: a', y :: b' => Byte.eqb x y && bytes_eqb a' b'
  | _, _ => false
  end.

Fixpoint chars_eqb (a b : list ascii) : bool :=
  match a, b with
  | [], [] => true
  | x :: a', y :: b' => Ascii.eqb x y && chars_eqb a' b'
  | _, _ => false
  end.

Definition print_byte (b : byte) : list ascii :=
  print_digits 3 (Z.of_N (Byte.to_N b)) [].

Definition dotted_decimal (a : list byte) : list ascii :=
  match a with
  | [a0; a1; a2; a3] =>
      print_byte a0 ++ lit "." ++ print_byte a1 ++ lit "." ++
      print_byte a2 ++ lit "." ++ print_byte a3
  | _ => []
  end.

(** A numeric renderer for IPv4 and IPv4-mapped addresses: the text and a
    terminator when they fit, EAI_OVERFLOW and an untouched buffer when
    they do not.  It has no text for other IPv6 addresses and fails on
    them in the same way. *)
Definition numeric_host
  (sa : sockaddr) (host : list ascii) (hostlen : nat) (flags : Z)
  : Z * list ascii :=
  let text :=
    match sa with
    | SockaddrIn a => dotted_decimal (s_addr (sin_addr a))
    | SockaddrIn6 a =>
        let b := s6_addr (sin6_addr a) in
        if bytes_eqb (firstn 12 b) (v4mapped [])
        then lit "::ffff:" ++ dotted_decimal (skipn 12 b)
        else []
    end in
  if is_null text || (hostlen <=? length text) then (EAI_OVERFLOW, host)
  else
    match store host 0 (text ++ [NUL]) with
    | Ok host' => (0%Z, host')
    | Fault _ => (EAI_OVERFLOW, host)
    end.

(** A renderer whose answer is always EAI_OVERFLOW, the buffer left as
    it was. *)
Definition getnameinfo_overflow
  (sa : sockaddr) (host : list ascii) (hostlen : nat) (flags : Z)
  : Z * list ascii :=
  (EAI_OVERFLOW, host).

Definition inet_node (a : list byte) : addrinfo :=
  {| ai_family := AF_INET;
     ai_socktype := SOCK_STREAM;
     ai_protocol := IPPROTO_TCP;
     ai_addr := SockaddrIn {| sin_family := AF_INET;
                              sin_port := 0;
                              sin_addr := {| s_addr := a |} |} |}.

Definition inet6_node (a : list byte) (scope : Z) : addrinfo :=
  {| ai_family := AF_INET6;
     ai_socktype := SOCK_STREAM;
     ai_protocol := IPPROTO_TCP;
     ai_addr := SockaddrIn6 {| sin6_family := AF_INET6;
                               sin6_port := 0;
                               sin6_flowinfo := 0;
                               sin6_addr := {| s6_addr := a |};
                               sin6_scope_id := scope |} |}.

(** A resolver that knows the literal 127.0.0.1 and nothing else. *)
Definition getaddrinfo_loopback
  (address : list ascii) (hints : addrinfo_hints) : Z * list addrinfo :=
  if chars_eqb address (c_lit "127.0.0.1")
  then (0%Z, [inet_node [x7f; x00; x00; x01]])
  else (EAI_NONAME, []).

(** A resolver that answers every name with the given list. *)
Definition getaddrinfo_const
  (l : list addrinfo) (address : list ascii) (hints : addrinfo_hints)
  : Z * list addrinfo :=
  (0%Z, l).

Definition zero_sockaddr_in6 : sockaddr_in6 :=
  {| sin6_family := 0;
     sin6_port := 0;
     sin6_flowinfo := 0;
     sin6_addr := {| s6_addr := repeat x00 16 |};
     sin6_scope_id := 0 |}.

(** Candidate lists: a mixed one whose first IPv4 node is the third
    node, one of IPv6 nodes only, and one with a scoped node only. *)
Definition mixed_candidates : list addrinfo :=
  [inet6_node (repeat x00 15 ++ [x01]) 0;
   inet6_node (xfe :: x80 :: repeat x00 13 ++ [x01]) 2;
   inet_node [x7f; x00; x00; x01];
   inet_node [x0a; x00; x00; x01]].

Definition inet6_candidates : list addrinfo :=
  [inet6_node (xfe :: x80 :: repeat x00 13 ++ [x01]) 2;
   inet6_node (repeat x00 15 ++ [x01]) 0;
   inet6_node (repeat x00 15 ++ [x02]) 0].

Definition scoped_candidates : list addrinfo :=
  [inet6_node (xfe :: x80 :: repeat x00 13 ++ [x01]) 2].

(** The socket address Ndb_inet_ntop hands to getnameinfo for the
    sixteen address bytes [a]. *)
Definition numeric_sockaddr_in6 (a : list byte) : sockaddr :=
  SockaddrIn6 {| sin6_family := AF_INET6;
                 sin6_port := 0;
                 sin6_flowinfo := 0;
                 sin6_addr := {| s6_addr := a |};
                 sin6_scope_id := 0 |}.

(** poll failing: -1, the entry untouched. *)
Definition poll_fails (pfd : pollfd) (timeout : Z) : Z * pollfd :=
  ((-1)%Z, pfd).

(** select and getsockopt that report nothing; the poll strategy never
    calls them. *)
Definition select_idle
  (nfds : Z) (r w e : fd_set) (tv : Z) : Z * (fd_set * fd_set * fd_set) :=
  (0%Z, ([], [], [])).

Definition getsockopt_idle (s : ndb_socket_t) (level optname s_err : Z)
  : Z * Z :=
  (0%Z, 0%Z).

(** ** Vocabulary of the further properties *)

Definition is_inet (ai : addrinfo) : bool := (ai_family ai =? AF_INET)%Z.

(** The part of a list that starts at its first node satisfying [P]. *)
Fixpoint first_suffix (P : addrinfo -> bool) (l : list addrinfo)
  : list addrinfo :=
  match l with
  | [] => []
  | ai :: l' => if P ai then l else first_suffix P l'
  end.

(** The rule in the comment of get_preferred_address: the first IPv4
    address, and with no IPv4 address the first IPv6 address without
    scope. *)
Definition preferred (l : list addrinfo) : list addrinfo :=
  match first_suffix is_inet l with
  | [] => first_suffix zero_scope_ipv6 l
  | p => p
  end.

(** The sixteen bytes a node stands for. *)
Definition internal_address (ai : addrinfo) : in6_addr :=
  match ai_addr ai with
  | SockaddrIn sa => {| s6_addr := v4mapped (s_addr (sin_addr sa)) |}
  | SockaddrIn6 sa => sin6_addr sa
  end.

(** A node as getaddrinfo builds it: the struct its family names, with an
    address of the size of that struct's field. *)
Definition sized_addrinfo (ai : addrinfo) : Prop :=
  (ai_family ai = AF_INET ->
   exists sa, ai_addr ai = SockaddrIn sa /\
              length (s_addr (sin_addr sa)) = 4) /\
  (ai_family ai = AF_INET6 ->
   exists sa, ai_addr ai = SockaddrIn6 sa /\
              length (s6_addr (sin6_addr sa)) = 16).

Fixpoint starts_with (p t : list ascii) : bool :=
  match p, t with
  | [], _ => true
  | _ :: _, [] => false
  | c :: p', d :: t' => Ascii.eqb c d && starts_with p' t'
  end.

(** The input of the first rule whose closing bracket is its last
    character. *)
Definition bracket_at_end (s : list ascii) : Prop :=
  exists h, s = "["%char :: h ++ ["]"%char] /\ ~ In "]"%char h.

(** A fault of a load: the only kind the input can cause. *)
Definition read_fault (f : fault) : Prop := exists k, f = OobRead k.

(** One of the characters '0' to '9'. *)
Definition is_digit (c : ascii) : Prop :=
  exists d, (0 <= d < 10)%Z /\ c = digit d.

(** The host and the service that the three parsing rules of the spec
    extract from an endpoint text, before any check of the room for
    them: rule 1 for a text that starts with a bracket (none where no
    bracket closes it or where something other than a colon or the end
    follows the closing bracket), rule 2 for a text with exactly one
    colon, rule 3 for every other text. *)
Definition spec_extract (s : list ascii)
  : option (list ascii * list ascii) :=
  match s with
  | [] => Some ([], [])
  | c0 :: t =>
      if Ascii.eqb c0 "[" then
        if has "]" t then
          match text_after "]" t with
          | [] => Some (text_before "]" t, [])
          | c :: p =>
              if Ascii.eqb c ":" then Some (text_before "]" t, p) else None
          end
        else None
      else if colons s =? 1 then Some (text_before ":" s, text_after ":" s)
      else Some (s, [])
  end.

(** * Properties *)

Unset Implicit Arguments.

(** ** Lists as memory objects *)

Lemma skipn_length_app {A : Type} {l1 l2 : list A} :
  skipn (length l1) (l1 ++ l2) = l2.
Proof. induction l1; simpl; auto. Qed.

Lemma firstn_length_app {A : Type} {l1 l2 : list A} :
  firstn (length l1) (l1 ++ l2) = l1.
Proof. induction l1; simpl; auto; now f_equal. Qed.

Lemma skipn_plus_app {A : Type} {l1 l2 : list A} {n : nat} :
  skipn (length l1 + n) (l1 ++ l2) = skipn n l2.
Proof. induction l1; simpl; auto. Qed.

Lemma firstn_skipn_cons {A : Type} {m : list A} {k : nat} :
  k < length m -> exists x, skipn k m = x :: skipn (S k) m.
Proof.
  revert k; induction m as [|a m IH]; intros k Hk; simpl in Hk; [lia|].
  destruct k as [|k]; simpl.
  - now exists a.
  - apply IH; lia.
Qed.

Lemma store_app {A : Type} {a m cells : list A} :
  length cells <= length m ->
  store (a ++ m) (length a) cells =
  Ok (a ++ cells ++ skipn (length cells) m).
Proof.
  intros Hle; unfold store.
  rewrite length_app.
  replace (length a + length cells <=? length a + length m) with true
    by (symmetry; apply Nat.leb_le; lia).
  now rewrite firstn_length_app, skipn_plus_app.
Qed.

Lemma store_0 {A : Type} {m cells : list A} :
  length cells <= length m ->
  store m 0 cells = Ok (cells ++ skipn (length cells) m).
Proof. intros Hle; now apply (store_app (a := [])). Qed.

Lemma store_fits {A : Type} {m cells : list A} {p : nat} :
  p + length cells <= length m ->
  exists m', store m p cells = Ok m' /\ length m' = length m.
Proof.
  intros Hle; unfold store.
  replace (p + length cells <=? length m) with true
    by (symmetry; apply Nat.leb_le; lia).
  eexists; split; [reflexivity|].
  rewrite !length_app, length_firstn, length_skipn; lia.
Qed.

Lemma repeat_snoc {A : Type} {x : A} {n : nat} :
  repeat x n ++ [x] = x :: repeat x n.
Proof. induction n; simpl; auto; now f_equal. Qed.

(** ** The string functions on a NUL-terminated object *)

Lemma eqb_NUL_false {c : ascii} {s : list ascii} :
  ~ In NUL (c :: s) -> Ascii.eqb c NUL = false.
Proof. intros H; apply Ascii.eqb_neq; intros ->; apply H; now left. Qed.

Lemma no_nul_tail {c : ascii} {s : list ascii} :
  ~ In NUL (c :: s) -> ~ In NUL s.
Proof. intros H Hin; apply H; now right. Qed.

Lemma c_str_app {s r : list ascii} :
  no_nul s -> c_str (s ++ NUL :: r) = Some s.
Proof.
  unfold no_nul; induction s as [|c s IH]; intros Hs; simpl; auto.
  now rewrite (eqb_NUL_false Hs), IH by exact (no_nul_tail Hs).
Qed.

Lemma strlen_from_app {s tail : list ascii} {p : nat} :
  no_nul s -> strlen_from (s ++ NUL :: tail) p = Ok (length s).
Proof.
  unfold no_nul; revert p; induction s as [|c s IH]; intros p Hs; simpl; auto.
  now rewrite (eqb_NUL_false Hs), IH by exact (no_nul_tail Hs).
Qed.

Lemma strlen_at {m before s tail : list ascii} {k : nat} :
  m = before ++ s ++ NUL :: tail -> k = length before -> no_nul s ->
  strlen m k = Ok (length s).
Proof.
  intros -> -> Hs; unfold strlen.
  now rewrite skipn_length_app, strlen_from_app.
Qed.

Lemma strlen_from_unterminated {s : list ascii} {p : nat} :
  no_nul s -> strlen_from s p = Fault (OobRead (p + length s)).
Proof.
  unfold no_nul; revert p; induction s as [|c s IH]; intros p Hs; simpl.
  - now rewrite Nat.add_0_r.
  - rewrite (eqb_NUL_false Hs), IH by exact (no_nul_tail Hs).
    simpl; now rewrite Nat.add_succ_r.
Qed.

Lemma strchr_from_found {pre rest : list ascii} {c : ascii} {p : nat} :
  ~ In c pre -> no_nul pre ->
  strchr_from (pre ++ c :: rest) c p = Ok (Some (p + length pre)).
Proof.
  unfold no_nul; revert p; induction pre as [|x pre IH]; intros p Hc Hs; simpl.
  - now rewrite Ascii.eqb_refl, Nat.add_0_r.
  - replace (Ascii.eqb x c) with false
      by (symmetry; apply Ascii.eqb_neq; intros ->; apply Hc; now left).
    rewrite (eqb_NUL_false Hs), IH.
    + now rewrite Nat.add_succ_r.
    + intros Hin; apply Hc; now right.
    + exact (no_nul_tail Hs).
Qed.

Lemma strchr_from_absent {s tail : list ascii} {c : ascii} {p : nat} :
  ~ In c s -> no_nul s -> c <> NUL ->
  strchr_from (s ++ NUL :: tail) c p = Ok None.
Proof.
  unfold no_nul; revert p; induction s as [|x s IH]; intros p Hc Hs Hn;
    cbn [app strchr_from].
  - replace (Ascii.eqb NUL c) with false; auto.
    symmetry; apply Ascii.eqb_neq; congruence.
  - replace (Ascii.eqb x c) with false
      by (symmetry; apply Ascii.eqb_neq; intros ->; apply Hc; now left).
    rewrite (eqb_NUL_false Hs), IH; auto.
    + intros Hin; apply Hc; now right.
    + exact (no_nul_tail Hs).
Qed.

Lemma strchr_at_found {m before pre rest : list ascii} {c : ascii} {k : nat} :
  m = before ++ pre ++ c :: rest -> k = length before ->
  ~ In c pre -> no_nul pre ->
  strchr m k c = Ok (Some (k + length pre)).
Proof.
  intros -> -> Hc Hs; unfold strchr.
  now rewrite skipn_length_app, strchr_from_found.
Qed.

Lemma strchr_at_absent {m before s tail : list ascii} {c : ascii} {k : nat} :
  m = before ++ s ++ NUL :: tail -> k = length before ->
  ~ In c s -> no_nul s -> c <> NUL ->
  strchr m k c = Ok None.
Proof.
  intros -> -> Hc Hs Hn; unfold strchr.
  now rewrite skipn_length_app, strchr_from_absent.
Qed.

Lemma strncpy_cells_exact {s rest : list ascii} {p : nat} :
  no_nul s -> strncpy_cells (s ++ rest) p (length s) = Ok s.
Proof.
  unfold no_nul; revert p; induction s as [|c s IH]; intros p Hs; simpl; auto.
  now rewrite (eqb_NUL_false Hs), IH by exact (no_nul_tail Hs).
Qed.

Lemma strncpy_cells_pad {s tail : list ascii} {p n : nat} :
  no_nul s -> length s < n ->
  strncpy_cells (s ++ NUL :: tail) p n = Ok (s ++ repeat NUL (n - length s)).
Proof.
  unfold no_nul; revert p n; induction s as [|c s IH]; intros p n Hs Hn.
  - destruct n as [|n]; simpl in *; [lia|reflexivity].
  - destruct n as [|n]; simpl in *; [lia|].
    rewrite (eqb_NUL_false Hs), IH; [reflexivity | exact (no_nul_tail Hs) | lia].
Qed.

Lemma strncpy_exact {dst m before s rest : list ascii} {k n : nat} :
  m = before ++ s ++ rest -> k = length before -> n = length s ->
  no_nul s -> length s <= length dst ->
  strncpy dst m k n = Ok (s ++ skipn (length s) dst).
Proof.
  intros -> -> -> Hs Hle; unfold strncpy.
  rewrite skipn_length_app, strncpy_cells_exact; auto; simpl.
  now apply store_0.
Qed.

Lemma strncpy_pad {dst m before s tail : list ascii} {k n : nat} :
  m = before ++ s ++ NUL :: tail -> k = length before ->
  no_nul s -> length s < n -> n <= length dst ->
  strncpy dst m k n = Ok (s ++ repeat NUL (n - length s) ++ skipn n dst).
Proof.
  intros -> -> Hs Hn Hle; unfold strncpy.
  rewrite skipn_length_app, strncpy_cells_pad; auto; simpl.
  rewrite store_0.
  - rewrite length_app, repeat_length.
    replace (length s + (n - length s)) with n by lia.
    now rewrite <- app_assoc.
  - rewrite length_app, repeat_length; lia.
Qed.

(** Writing the terminator into the last cell of what strncpy padded
    changes nothing. *)
Lemma store_last_padded {s rest : list ascii} {n : nat} :
  length s < n ->
  store (s ++ repeat NUL (n - length s) ++ rest) (n - 1) [NUL] =
  Ok (s ++ repeat NUL (n - length s) ++ rest).
Proof.
  intros Hn.
  remember (n - 1 - length s) as k eqn:Hk.
  replace (n - length s) with (S k) by lia.
  replace (n - 1) with (length (s ++ repeat NUL k))
    by (rewrite length_app, repeat_length; lia).
  cbn [repeat].
  rewrite <- repeat_snoc, <- !app_assoc; cbn [app].
  rewrite (app_assoc s).
  rewrite store_app; [reflexivity | simpl; lia].
Qed.

Lemma first_occurrence {c : ascii} {s : list ascii} :
  In c s -> exists pre post, s = pre ++ c :: post /\ ~ In c pre.
Proof.
  induction s as [|x s IH]; intros Hin; [destruct Hin|].
  destruct (ascii_dec x c) as [->|Hne].
  - exists [], s; split; auto.
  - destruct Hin as [->|Hin]; [congruence|].
    destruct (IH Hin) as (pre & post & -> & Hpre).
    exists (x :: pre), post; split; auto.
    intros [->|H]; auto.
Qed.

Lemma text_before_app {c : ascii} {pre post : list ascii} :
  ~ In c pre -> text_before c (pre ++ c :: post) = pre.
Proof.
  induction pre as [|x pre IH]; intros Hc; simpl.
  - now rewrite Ascii.eqb_refl.
  - replace (Ascii.eqb x c) with false
      by (symmetry; apply Ascii.eqb_neq; intros ->; apply Hc; now left).
    rewrite IH; auto.
    intros Hin; apply Hc; now right.
Qed.

Lemma text_after_app {c : ascii} {pre post : list ascii} :
  ~ In c pre -> text_after c (pre ++ c :: post) = post.
Proof.
  induction pre as [|x pre IH]; intros Hc; simpl.
  - now rewrite Ascii.eqb_refl.
  - replace (Ascii.eqb x c) with false
      by (symmetry; apply Ascii.eqb_neq; intros ->; apply Hc; now left).
    rewrite IH; auto.
    intros Hin; apply Hc; now right.
Qed.

Lemma no_nul_app {a b : list ascii} :
  no_nul (a ++ b) <-> no_nul a /\ no_nul b.
Proof.
  unfold no_nul; split.
  - intros H; split; intros Hin; apply H; apply in_or_app; auto.
  - intros [Ha Hb] Hin; apply in_app_or in Hin; tauto.
Qed.

Lemma no_nul_cons {c : ascii} {s : list ascii} :
  no_nul (c :: s) <-> c <> NUL /\ no_nul s.
Proof.
  unfold no_nul; simpl; split.
  - intros H; split; [intros ->|]; tauto.
  - intros [Hc Hs] [H|H]; [congruence|tauto].
Qed.

(** ** Ndb_split_string_address_port: inputs without a leading bracket *)

Lemma store_terminator {s m : list ascii} :
  length s < length m ->
  store (s ++ skipn (length s) m) (length s) [NUL] =
  Ok (s ++ NUL :: skipn (S (length s)) m).
Proof.
  intros Hlt.
  destruct (firstn_skipn_cons Hlt) as [x Hx].
  rewrite Hx, store_app; [reflexivity | simpl; lia].
Qed.

Lemma load_head {c : ascii} {m : list ascii} : load (c :: m) 0 = Ok c.
Proof. reflexivity. Qed.

Lemma head_not_bracket {s rest : list ascii} :
  (forall t, s <> "["%char :: t) ->
  exists c m, s ++ NUL :: rest = c :: m /\ Ascii.eqb c "[" = false.
Proof.
  intros Hs; destruct s as [|c s]; simpl.
  - exists NUL, rest; split; reflexivity.
  - exists c, (s ++ NUL :: rest); split; auto.
    apply Ascii.eqb_neq; intros ->; now apply (Hs s).
Qed.

Lemma colon_not_NUL : ":"%char <> NUL.
Proof. discriminate. Qed.

(** Exactly one colon: the host is the text before it, the service the
    text after it; the buffers hold exactly these cells. *)
Lemma split_single_colon
  {h p tail host serv : list ascii} {hostlen servlen : nat} :
  no_nul h -> no_nul p -> ~ In ":"%char h -> ~ In ":"%char p ->
  (forall t, h ++ ":"%char :: p <> "["%char :: t) ->
  length h < hostlen -> length p < servlen ->
  hostlen <= length host -> servlen <= length serv ->
  Ndb_split_string_address_port
    ((h ++ ":"%char :: p) ++ NUL :: tail) host hostlen serv servlen =
  Ok (0%Z,
      h ++ NUL :: skipn (S (length h)) host,
      p ++ repeat NUL (servlen - length p) ++ skipn servlen serv).
Proof.
  intros Hh Hp Hch Hcp Hb Hhl Hsl Hhost Hserv.
  destruct (head_not_bracket (rest := tail) Hb) as (c0 & m0 & E0 & Hc0).
  remember ((h ++ ":"%char :: p) ++ NUL :: tail) as arg eqn:Harg.
  assert (Earg : arg = [] ++ h ++ ":"%char :: p ++ NUL :: tail)
    by (subst arg; now rewrite <- app_assoc).
  assert (Earg' : arg = (h ++ [":"%char]) ++ p ++ NUL :: tail)
    by (subst arg; now rewrite <- !app_assoc).
  assert (Hlen : length h + 1 = length (h ++ [":"%char]))
    by (rewrite length_app; reflexivity).
  unfold Ndb_split_string_address_port.
  rewrite E0, load_head; cbn [bind]; rewrite Hc0, <- E0.
  rewrite (strchr_at_found (k := 0) Earg eq_refl Hch Hh); cbn [bind plus].
  rewrite (strchr_at_absent Earg' Hlen Hcp Hp colon_not_NUL); cbn [bind].
  rewrite Nat.sub_0_r.
  replace (hostlen <=? length h) with false
    by (symmetry; apply Nat.leb_gt; lia).
  rewrite (strlen_at Earg' Hlen Hp); cbn [bind].
  replace (servlen <=? length p) with false
    by (symmetry; apply Nat.leb_gt; lia).
  rewrite (strncpy_exact (dst := host) (k := 0) Earg eq_refl eq_refl Hh)
    by lia; cbn [bind].
  rewrite store_terminator by lia; cbn [bind].
  rewrite (strncpy_pad (dst := serv) Earg' Hlen Hp Hsl Hserv); cbn [bind].
  rewrite store_last_padded by lia; cbn [bind].
  reflexivity.
Qed.

(** No colon at all: the whole input is the host. *)
Lemma split_no_colon
  {s tail host serv : list ascii} {hostlen servlen : nat} :
  no_nul s -> ~ In ":"%char s ->
  (forall t, s <> "["%char :: t) ->
  length s < hostlen -> 0 < servlen ->
  hostlen <= length host -> servlen <= length serv ->
  Ndb_split_string_address_port (s ++ NUL :: tail) host hostlen serv servlen =
  Ok (0%Z,
      s ++ repeat NUL (hostlen - length s) ++ skipn hostlen host,
      NUL :: skipn 1 serv).
Proof.
  intros Hs Hc Hb Hhl Hsl Hhost Hserv.
  destruct (head_not_bracket (rest := tail) Hb) as (c0 & m0 & E0 & Hc0).
  remember (s ++ NUL :: tail) as arg eqn:Harg.
  assert (Earg : arg = [] ++ s ++ NUL :: tail) by (subst arg; reflexivity).
  unfold Ndb_split_string_address_port.
  rewrite E0, load_head; cbn [bind]; rewrite Hc0, <- E0.
  rewrite (strchr_at_absent (k := 0) Earg eq_refl Hc Hs colon_not_NUL);
    cbn [bind].
  rewrite (strlen_at (k := 0) Earg eq_refl Hs); cbn [bind].
  replace (hostlen <=? length s) with false
    by (symmetry; apply Nat.leb_gt; lia).
  rewrite (strncpy_pad (dst := host) (k := 0) Earg eq_refl Hs Hhl Hhost);
    cbn [bind].
  rewrite store_last_padded by lia; cbn [bind].
  rewrite store_0 by (simpl; lia); cbn [bind].
  reflexivity.
Qed.

(** Two colons or more: the first strchr finds one, the second finds
    another, and the whole input is the host. *)
Lemma split_many_colons
  {h p1 p2 tail host serv : list ascii} {hostlen servlen : nat} :
  let s := h ++ ":"%char :: p1 ++ ":"%char :: p2 in
  no_nul s -> ~ In ":"%char h -> ~ In ":"%char p1 ->
  (forall t, s <> "["%char :: t) ->
  length s < hostlen -> 0 < servlen ->
  hostlen <= length host -> servlen <= length serv ->
  Ndb_split_string_address_port (s ++ NUL :: tail) host hostlen serv servlen =
  Ok (0%Z,
      s ++ repeat NUL (hostlen - length s) ++ skipn hostlen host,
      NUL :: skipn 1 serv).
Proof.
  intros s Hs Hch Hcp Hb Hhl Hsl Hhost Hserv.
  destruct (head_not_bracket (rest := tail) Hb) as (c0 & m0 & E0 & Hc0).
  assert (Hparts : no_nul h /\ no_nul p1).
  { pose proof Hs as Hs'; unfold s in Hs'.
    apply no_nul_app in Hs'; destruct Hs' as [Hh Hs'].
    apply no_nul_cons in Hs'; destruct Hs' as [_ Hs'].
    apply no_nul_app in Hs'; tauto. }
  destruct Hparts as [Hh Hp1].
  remember (s ++ NUL :: tail) as arg eqn:Harg.
  assert (Earg0 : arg = [] ++ s ++ NUL :: tail) by (subst arg; reflexivity).
  assert (Earg : arg = [] ++ h ++ ":"%char ::
                       (p1 ++ ":"%char :: p2) ++ NUL :: tail)
    by (subst arg s; now rewrite <- app_assoc).
  assert (Earg' : arg = (h ++ [":"%char]) ++ p1 ++ ":"%char ::
                        p2 ++ NUL :: tail)
    by (subst arg s; now rewrite <- !app_assoc; cbn [app];
        rewrite <- !app_assoc).
  assert (Hlen : length h + 1 = length (h ++ [":"%char]))
    by (rewrite length_app; reflexivity).
  unfold Ndb_split_string_address_port.
  rewrite E0, load_head; cbn [bind]; rewrite Hc0, <- E0.
  rewrite (strchr_at_found (k := 0) Earg eq_refl Hch Hh); cbn [bind plus].
  rewrite (strchr_at_found Earg' Hlen Hcp Hp1); cbn [bind].
  rewrite (strlen_at (k := 0) Earg0 eq_refl Hs); cbn [bind].
  replace (hostlen <=? length s) with false
    by (symmetry; apply Nat.leb_gt; lia).
  rewrite (strncpy_pad (dst := host) (k := 0) Earg0 eq_refl Hs Hhl Hhost);
    cbn [bind].
  rewrite store_last_padded by lia; cbn [bind].
  rewrite store_0 by (simpl; lia); cbn [bind].
  reflexivity.
Qed.

Lemma c_str_padded {s r : list ascii} {n : nat} :
  no_nul s -> length s < n ->
  c_str (s ++ repeat NUL (n - length s) ++ r) = Some s.
Proof.
  intros Hs Hn.
  replace (n - length s) with (S (n - 1 - length s)) by lia.
  cbn [repeat app]; now apply c_str_app.
Qed.

Lemma one_colon {s : list ascii} :
  colons s = 1 ->
  exists h p, s = h ++ ":"%char :: p /\ ~ In ":"%char h /\ ~ In ":"%char p.
Proof.
  unfold colons; intros H1.
  assert (Hin : In ":"%char s) by (apply (count_occ_In ascii_dec); lia).
  destruct (first_occurrence Hin) as (h & p & -> & Hh).
  exists h, p; repeat split; auto.
  rewrite count_occ_app, count_occ_cons_eq in H1 by reflexivity.
  apply (count_occ_not_In ascii_dec) in Hh.
  apply (count_occ_not_In ascii_dec); lia.
Qed.

Lemma not_one_colon {s : list ascii} :
  colons s <> 1 ->
  ~ In ":"%char s \/
  exists h p1 p2, s = h ++ ":"%char :: p1 ++ ":"%char :: p2 /\
                  ~ In ":"%char h /\ ~ In ":"%char p1.
Proof.
  unfold colons; intros H1.
  destruct (in_dec ascii_dec ":"%char s) as [Hin|Hnin]; [right|now left].
  destruct (first_occurrence Hin) as (h & p & -> & Hh).
  rewrite count_occ_app, count_occ_cons_eq in H1 by reflexivity.
  pose proof (proj1 (count_occ_not_In ascii_dec _ _) Hh) as Hh0.
  assert (Hp : In ":"%char p) by (apply (count_occ_In ascii_dec); lia).
  destruct (first_occurrence Hp) as (p1 & p2 & -> & Hp1).
  now exists h, p1, p2.
Qed.

(** C4. An input that does not start with '[': with exactly one colon the
    host is the text before the colon and the service the text after it;
    with no colon, or with two or more, the whole input is the host and
    the service is empty; each provided the two pieces fit their buffers.
    The cells behind the terminator of the input play no part. *)
Theorem split_plain_endpoint
  {s tail host serv : list ascii} {hostlen servlen : nat} :
  no_nul s ->
  (forall t, s <> "["%char :: t) ->
  hostlen <= length host ->
  servlen <= length serv ->
  (colons s = 1 ->
   length (text_before ":" s) < hostlen ->
   length (text_after ":" s) < servlen ->
   exists host' serv',
     Ndb_split_string_address_port (s ++ NUL :: tail) host hostlen serv servlen
     = Ok (0%Z, host', serv') /\
     c_str host' = Some (text_before ":" s) /\
     c_str serv' = Some (text_after ":" s))
  /\
  (colons s <> 1 ->
   length s < hostlen ->
   0 < servlen ->
   exists host' serv',
     Ndb_split_string_address_port (s ++ NUL :: tail) host hostlen serv servlen
     = Ok (0%Z, host', serv') /\
     c_str host' = Some s /\
     c_str serv' = Some []).
Proof.
  intros Hs Hb Hhost Hserv; split.
  - intros H1 Hhl Hsl.
    destruct (one_colon H1) as (h & p & -> & Hch & Hcp).
    rewrite (text_before_app Hch) in *.
    rewrite (text_after_app Hch) in *.
    apply no_nul_app in Hs; destruct Hs as [Hh Hp].
    apply no_nul_cons in Hp; destruct Hp as [_ Hp].
    rewrite (split_single_colon Hh Hp Hch Hcp Hb Hhl Hsl Hhost Hserv).
    do 2 eexists; split; [reflexivity|]; split.
    + now apply c_str_app.
    + now apply c_str_padded.
  - intros H1 Hhl Hsl.
    destruct (not_one_colon H1) as [Hnone | (h & p1 & p2 & -> & Hch & Hcp)].
    + rewrite (split_no_colon Hs Hnone Hb Hhl Hsl Hhost Hserv).
      do 2 eexists; split; [reflexivity|]; split.
      * now apply c_str_padded.
      * reflexivity.
    + rewrite (split_many_colons Hs Hch Hcp Hb Hhl Hsl Hhost Hserv).
      do 2 eexists; split; [reflexivity|]; split.
      * now apply c_str_padded.
      * reflexivity.
Qed.

Lemma split_plain_endpoint_examples :
  (exists host' serv',
     Ndb_split_string_address_port
       (lit "127.0.0.1:1186" ++ NUL :: []) (buf 16) 16 (buf 8) 8
     = Ok (0%Z, host', serv') /\
     c_str host' = Some (lit "127.0.0.1") /\
     c_str serv' = Some (lit "1186"))
  /\
  (exists host' serv',
     Ndb_split_string_address_port
       (lit "myhost" ++ NUL :: lit "stale") (buf 16) 16 (buf 8) 8
     = Ok (0%Z, host', serv') /\
     c_str host' = Some (lit "myhost") /\
     c_str serv' = Some []).
Proof.
  split.
  - refine (proj1 (@split_plain_endpoint
                     (lit "127.0.0.1:1186") [] (buf 16) (buf 8) 16 8
                     _ _ _ _) _ _ _).
    + cbv; intuition discriminate.
    + intros t; cbv; discriminate.
    + cbv; lia.
    + cbv; lia.
    + reflexivity.
    + cbv; lia.
    + cbv; lia.
  - refine (proj2 (@split_plain_endpoint
                     (lit "myhost") (lit "stale") (buf 16) (buf 8) 16 8
                     _ _ _ _) _ _ _).
    + cbv; intuition discriminate.
    + intros t; cbv; discriminate.
    + cbv; lia.
    + cbv; lia.
    + cbv; discriminate.
    + cbv; lia.
    + lia.
Defined.

(** ** get_preferred_address *)

Lemma family_neqb {ai : addrinfo} {f : Z} :
  ai_family ai <> f -> (ai_family ai =? f)%Z = false.
Proof. intros H; now apply Z.eqb_neq. Qed.

(** Once a node is preferred, a rest of the list without IPv4 nodes is
    walked to its end and changes nothing. *)
Lemma scan_keeps_preferred {l : list addrinfo} {n : addrinfo}
  {pref : list addrinfo} :
  (forall x, In x l -> ai_family x <> AF_INET) ->
  preferred_scan l (n :: pref) = Ok (n :: pref, []).
Proof.
  induction l as [|ai l IH]; intros Hno; [reflexivity|].
  cbn [preferred_scan is_null andb].
  rewrite (family_neqb (Hno ai (or_introl eq_refl))).
  apply IH; intros x Hx; apply Hno; now right.
Qed.

(** Nodes that are neither IPv4 nor IPv6 of scope zero are passed over. *)
Lemma scan_passes_over {l rest : list addrinfo} :
  Forall wf_addrinfo l ->
  (forall x, In x l -> ai_family x <> AF_INET /\ zero_scope_ipv6 x = false) ->
  preferred_scan (l ++ rest) [] = preferred_scan rest [].
Proof.
  induction l as [|ai l IH]; intros Hwf Hno; [reflexivity|].
  inversion Hwf as [|? ? [_ Hwf6] Hwfl]; subst.
  destruct (Hno ai (or_introl eq_refl)) as [H4 Hz].
  assert (IH' : preferred_scan (l ++ rest) [] = preferred_scan rest [])
    by (apply IH; auto; intros x Hx; apply Hno; now right).
  cbn [app preferred_scan is_null andb].
  rewrite (family_neqb H4).
  unfold zero_scope_ipv6 in Hz.
  destruct (ai_family ai =? AF_INET6)%Z eqn:E6; auto.
  apply Z.eqb_eq in E6; destruct (Hwf6 E6) as [sa Hsa].
  rewrite Hsa in *; cbn [as_sockaddr_in6 bind andb] in *.
  now rewrite Hz.
Qed.

(** The first IPv4 node ends the loop, whatever was preferred before. *)
Lemma scan_stops_at_ipv4 {l1 l2 pref : list addrinfo} {ai : addrinfo} :
  Forall wf_addrinfo l1 ->
  (forall x, In x l1 -> ai_family x <> AF_INET) ->
  ai_family ai = AF_INET ->
  preferred_scan (l1 ++ ai :: l2) pref = Ok (ai :: l2, ai :: l2).
Proof.
  intros Hwf Hno H4; revert pref Hwf Hno.
  induction l1 as [|x l1 IH]; intros pref Hwf Hno.
  - cbn [app preferred_scan]; rewrite H4; reflexivity.
  - inversion Hwf as [|? ? [_ Hwf6] Hwfl]; subst.
    assert (Hno' : forall y, In y l1 -> ai_family y <> AF_INET)
      by (intros y Hy; apply Hno; now right).
    cbn [app preferred_scan].
    rewrite (family_neqb (Hno x (or_introl eq_refl))).
    destruct (is_null pref && (ai_family x =? AF_INET6)%Z) eqn:E; auto.
    apply andb_prop in E; destruct E as [_ E6].
    apply Z.eqb_eq in E6; destruct (Hwf6 E6) as [sa Hsa].
    rewrite Hsa; cbn [as_sockaddr_in6 bind].
    destruct (sin6_scope_id sa =? 0)%Z; auto.
Qed.

Lemma scan_prefers_zero_scope {l : list addrinfo} {ai : addrinfo} :
  zero_scope_ipv6 ai = true ->
  ai_family ai <> AF_INET ->
  (forall x, In x l -> ai_family x <> AF_INET) ->
  preferred_scan (ai :: l) [] = Ok (ai :: l, []).
Proof.
  unfold zero_scope_ipv6; intros Hz H4 Hno.
  apply andb_prop in Hz; destruct Hz as [E6 Hz].
  cbn [preferred_scan is_null andb].
  rewrite (family_neqb H4), E6.
  destruct (ai_addr ai) as [sa|sa]; [discriminate|].
  cbn [as_sockaddr_in6 bind]; rewrite Hz.
  now apply scan_keeps_preferred.
Qed.

(** C1. The selection over the list of the resolver: the first IPv4 node
    is chosen and the loop is left at it, whatever stands before it; with
    no IPv4 node the first IPv6 node of scope zero is chosen and the loop
    runs to the end of the list; with neither, no node is chosen and
    Ndb_getInAddr6 returns -1. *)
Theorem get_preferred_address_policy {ai_list : list addrinfo} :
  Forall wf_addrinfo ai_list ->
  (forall l1 ai l2,
     ai_list = l1 ++ ai :: l2 ->
     (forall x, In x l1 -> ai_family x <> AF_INET) ->
     ai_family ai = AF_INET ->
     preferred_scan ai_list [] = Ok (ai :: l2, ai :: l2) /\
     get_preferred_address ai_list = Ok (ai :: l2))
  /\
  ((forall x, In x ai_list -> ai_family x <> AF_INET) ->
   forall l1 ai l2,
     ai_list = l1 ++ ai :: l2 ->
     (forall x, In x l1 -> zero_scope_ipv6 x = false) ->
     zero_scope_ipv6 ai = true ->
     preferred_scan ai_list [] = Ok (ai :: l2, []) /\
     get_preferred_address ai_list = Ok (ai :: l2))
  /\
  ((forall x, In x ai_list ->
              ai_family x <> AF_INET /\ zero_scope_ipv6 x = false) ->
   get_preferred_address ai_list = Ok [] /\
   forall addr6 getaddrinfo dst address,
     getaddrinfo address resolver_hints = (0%Z, ai_list) ->
     Ndb_getInAddr6 addr6 getaddrinfo dst address = Ok ((-1)%Z, dst)).
Proof.
  intros Hwf; split; [|split].
  - intros l1 ai l2 -> Hno H4.
    apply Forall_app in Hwf; destruct Hwf as [Hwf1 _].
    unfold get_preferred_address.
    rewrite (scan_stops_at_ipv4 Hwf1 Hno H4); split; reflexivity.
  - intros Hno l1 ai l2 -> Hnz Hz.
    apply Forall_app in Hwf; destruct Hwf as [Hwf1 _].
    assert (Hscan : preferred_scan (l1 ++ ai :: l2) [] = Ok (ai :: l2, [])).
    { rewrite scan_passes_over; auto.
      - apply scan_prefers_zero_scope; auto.
        + apply Hno, in_or_app; right; now left.
        + intros x Hx; apply Hno, in_or_app; right; now right.
      - intros x Hx; split; auto.
        apply Hno, in_or_app; now left. }
    unfold get_preferred_address; rewrite Hscan; split; reflexivity.
  - intros Hno.
    assert (Hscan : preferred_scan ai_list [] = Ok ([], [])).
    { rewrite <- (app_nil_r ai_list), scan_passes_over; auto. }
    assert (Hpref : get_preferred_address ai_list = Ok [])
      by (unfold get_preferred_address; now rewrite Hscan).
    split; auto.
    intros addr6 getaddrinfo dst address Hres.
    unfold Ndb_getInAddr6; rewrite Hres; cbn [Z.eqb negb].
    rewrite Hpref; reflexivity.
Qed.

Ltac wf_nodes :=
  repeat (constructor;
          [split; intros Hfam;
           first [discriminate Hfam | eexists; reflexivity]|]).

Ltac each_node :=
  let x := fresh "x" in
  let Hx := fresh "Hx" in
  intros x Hx; cbn [In] in Hx;
  repeat (destruct Hx as [<-|Hx]; [try split; first [discriminate | reflexivity]|]);
  destruct Hx.

Lemma get_preferred_address_policy_witness :
  (preferred_scan mixed_candidates [] =
     Ok (skipn 2 mixed_candidates, skipn 2 mixed_candidates) /\
   get_preferred_address mixed_candidates = Ok (skipn 2 mixed_candidates))
  /\
  (preferred_scan inet6_candidates [] = Ok (skipn 1 inet6_candidates, []) /\
   get_preferred_address inet6_candidates = Ok (skipn 1 inet6_candidates))
  /\
  (get_preferred_address scoped_candidates = Ok [] /\
   Ndb_getInAddr6 zero_sockaddr_in6 (getaddrinfo_const scoped_candidates)
     {| s6_addr := repeat xaa 16 |} (c_lit "host") =
   Ok ((-1)%Z, {| s6_addr := repeat xaa 16 |})).
Proof.
  split; [|split].
  - refine (proj1 (@get_preferred_address_policy mixed_candidates _)
              (firstn 2 mixed_candidates) _ _ eq_refl _ eq_refl).
    + unfold mixed_candidates; wf_nodes; constructor.
    + each_node.
  - refine (proj1 (proj2 (@get_preferred_address_policy inet6_candidates _))
              _ (firstn 1 inet6_candidates) _ _ eq_refl _ eq_refl).
    + unfold inet6_candidates; wf_nodes; constructor.
    + each_node.
    + each_node.
  - destruct (proj2 (proj2 (@get_preferred_address_policy scoped_candidates
                              ltac:(unfold scoped_candidates; wf_nodes;
                                    constructor)))
                ltac:(each_node)) as [Hpref Hres].
    split; [exact Hpref|].
    apply Hres; reflexivity.
Defined.

(** ** Ndb_make_ipv6_from_ipv4 and get_in6_addr *)

Lemma make_ipv6_from_ipv4_bytes {dst : sockaddr_in6} {src : sockaddr_in} :
  length (s6_addr (sin6_addr dst)) = 16 ->
  length (s_addr (sin_addr src)) = 4 ->
  exists dst',
    Ndb_make_ipv6_from_ipv4 dst src = Ok dst' /\
    sin6_family dst' = AF_INET6 /\
    s6_addr (sin6_addr dst') = v4mapped (s_addr (sin_addr src)).
Proof.
  destruct dst as [f p fl [a6] sc], src as [f4 p4 [a4]]; cbn [s6_addr sin6_addr
    s_addr sin_addr]; intros H6 H4.
  do 16 (destruct a6 as [|? a6]; [discriminate H6|]).
  destruct a6; [|discriminate H6].
  do 4 (destruct a4 as [|? a4]; [discriminate H4|]).
  destruct a4; [|discriminate H4].
  eexists; split; [reflexivity|split; reflexivity].
Qed.

Lemma memcpy_whole {A : Type} {dst src : list A} {n : nat} :
  length dst = n -> length src = n -> memcpy dst 0 src n = Ok src.
Proof.
  intros Hd Hs; unfold memcpy.
  replace (n <=? length src) with true by (symmetry; apply Nat.leb_le; lia).
  rewrite store_0 by (rewrite length_firstn; lia).
  rewrite length_firstn, Nat.min_l by lia.
  rewrite <- Hs at 1; rewrite firstn_all.
  rewrite <- Hd, skipn_all; now rewrite app_nil_r.
Qed.

Lemma get_in6_addr_inet
  {addr6 : sockaddr_in6} {dst : in6_addr} {ai : addrinfo}
  {rest : list addrinfo} {sa : sockaddr_in} :
  length (s6_addr (sin6_addr addr6)) = 16 ->
  length (s6_addr dst) = 16 ->
  ai_family ai = AF_INET ->
  ai_addr ai = SockaddrIn sa ->
  length (s_addr (sin_addr sa)) = 4 ->
  get_in6_addr addr6 dst (ai :: rest) =
  Ok (0%Z, {| s6_addr := v4mapped (s_addr (sin_addr sa)) |}).
Proof.
  intros Hstack Hdst Hfam Haddr Hlen.
  destruct (make_ipv6_from_ipv4_bytes (src := sa) Hstack Hlen)
    as (m & Hm & _ & Hbytes).
  unfold get_in6_addr.
  rewrite Hfam, Haddr; cbn [Z.eqb Pos.eqb AF_INET as_sockaddr_in bind].
  rewrite Hm; cbn [bind]; rewrite Hbytes.
  rewrite memcpy_whole; auto.
  unfold v4mapped; rewrite !length_app, !repeat_length, Hlen; reflexivity.
Qed.

(** C5. The Internal Address of a selected node: for an IPv4 node ten
    zero bytes, two bytes 0xff and the four address bytes; for an IPv6
    node its sixteen address bytes as they are. *)
Theorem get_in6_addr_mapping
  {addr6 : sockaddr_in6} {dst : in6_addr} {ai : addrinfo}
  {rest : list addrinfo} :
  length (s6_addr (sin6_addr addr6)) = 16 ->
  length (s6_addr dst) = 16 ->
  (forall sa,
     ai_family ai = AF_INET ->
     ai_addr ai = SockaddrIn sa ->
     length (s_addr (sin_addr sa)) = 4 ->
     get_in6_addr addr6 dst (ai :: rest) =
     Ok (0%Z, {| s6_addr := repeat x00 10 ++ repeat xff 2 ++
                            s_addr (sin_addr sa) |}))
  /\
  (forall sa,
     ai_family ai = AF_INET6 ->
     ai_addr ai = SockaddrIn6 sa ->
     length (s6_addr (sin6_addr sa)) = 16 ->
     get_in6_addr addr6 dst (ai :: rest) = Ok (0%Z, sin6_addr sa)).
Proof.
  intros Hstack Hdst; split.
  - intros sa Hfam Haddr Hlen.
    exact (get_in6_addr_inet Hstack Hdst Hfam Haddr Hlen).
  - intros sa Hfam Haddr Hlen.
    unfold get_in6_addr.
    rewrite Hfam, Haddr; cbn [Z.eqb Pos.eqb AF_INET AF_INET6 as_sockaddr_in6
      bind].
    rewrite memcpy_whole; auto.
    destruct (sin6_addr sa); reflexivity.
Qed.

Lemma get_in6_addr_mapping_witness :
  get_in6_addr zero_sockaddr_in6 {| s6_addr := repeat xaa 16 |}
    (skipn 2 mixed_candidates) =
  Ok (0%Z, {| s6_addr := repeat x00 10 ++ repeat xff 2 ++
                         [x7f; x00; x00; x01] |})
  /\
  get_in6_addr zero_sockaddr_in6 {| s6_addr := repeat xaa 16 |}
    (skipn 1 inet6_candidates) =
  Ok (0%Z, {| s6_addr := repeat x00 15 ++ [x01] |}).
Proof.
  split.
  - exact (proj1 (@get_in6_addr_mapping zero_sockaddr_in6
                    {| s6_addr := repeat xaa 16 |}
                    (inet_node [x7f; x00; x00; x01])
                    [inet_node [x0a; x00; x00; x01]] eq_refl eq_refl)
             _ eq_refl eq_refl eq_refl).
  - exact (proj2 (@get_in6_addr_mapping zero_sockaddr_in6
                    {| s6_addr := repeat xaa 16 |}
                    (inet6_node (repeat x00 15 ++ [x01]) 0)
                    [inet6_node (repeat x00 15 ++ [x02]) 0] eq_refl eq_refl)
             _ eq_refl eq_refl eq_refl).
Defined.

(** ** Ndb_inet_ntop *)

Lemma memcpy_fresh {src : list byte} {n : nat} :
  n <= length src -> memcpy (repeat x00 n) 0 src n = Ok (firstn n src).
Proof.
  intros Hle; unfold memcpy.
  replace (n <=? length src) with true by (symmetry; apply Nat.leb_le; lia).
  rewrite store_0 by (rewrite length_firstn, repeat_length; lia).
  rewrite length_firstn, Nat.min_l by lia.
  rewrite <- (repeat_length x00 n) at 2.
  now rewrite skipn_all, app_nil_r.
Qed.

Lemma memmove_to_front {pre r rest : list ascii} {k : nat} :
  k = length pre ->
  memmove (pre ++ r ++ NUL :: rest) 0 k (k + length r - k + 1) =
  Ok (r ++ NUL :: skipn (length r + 1) (pre ++ r ++ NUL :: rest)).
Proof.
  intros ->; unfold memmove.
  replace (length pre + length r - length pre + 1) with (length (r ++ [NUL]))
    by (rewrite length_app; simpl; lia).
  replace (length pre + length (r ++ [NUL]) <=?
           length (pre ++ r ++ NUL :: rest)) with true
    by (symmetry; apply Nat.leb_le; rewrite !length_app; simpl; lia).
  rewrite skipn_length_app.
  replace (r ++ NUL :: rest) with ((r ++ [NUL]) ++ rest)
    by now rewrite <- app_assoc.
  rewrite firstn_length_app.
  rewrite store_0 by (rewrite !length_app; simpl; lia).
  rewrite <- app_assoc; cbn [app].
  rewrite length_app; reflexivity.
Qed.

(** The IPv6 case when the rendering succeeds with the mapped prefix. *)
Lemma inet_ntop_mapped
  {getnameinfo : sockaddr -> list ascii -> nat -> Z -> Z * list ascii}
  {src : list byte} {dst r rest : list ascii} {dst_size : nat} :
  0 < dst_size ->
  16 <= length src ->
  no_nul r ->
  getnameinfo (numeric_sockaddr_in6 (firstn 16 src)) dst dst_size
    NI_NUMERICHOST = (0%Z, lit "::ffff:" ++ r ++ NUL :: rest) ->
  Ndb_inet_ntop getnameinfo AF_INET6 src dst dst_size =
  Ok (r ++ NUL :: skipn (length r + 1) (lit "::ffff:" ++ r ++ NUL :: rest)).
Proof.
  intros Hsize Hsrc Hr Hrender.
  unfold Ndb_inet_ntop.
  replace (dst_size =? 0) with false by (symmetry; apply Nat.eqb_neq; lia).
  cbn [Z.eqb Pos.eqb AF_INET AF_INET6].
  rewrite (memcpy_fresh Hsrc); cbn [bind].
  unfold numeric_sockaddr_in6 in Hrender; rewrite Hrender.
  change (strlen (c_lit "::ffff:") 0) with (Ok (A := nat) 7); cbn [bind].
  change (strncmp (c_lit "::ffff:") (lit "::ffff:" ++ r ++ NUL :: rest) 7)
    with (Ok 0%Z); cbn [bind Z.eqb negb].
  assert (Hlen : strlen (lit "::ffff:" ++ r ++ NUL :: rest) 0 =
                 Ok (7 + length r)).
  { assert (Hpre : no_nul (lit "::ffff:" ++ r)).
    { apply no_nul_app; split; auto.
      cbv; intuition discriminate. }
    rewrite (strlen_at (before := []) (s := lit "::ffff:" ++ r) (tail := rest)
               (k := 0)); auto. }
  rewrite Hlen; cbn [bind].
  rewrite (memmove_to_front (pre := lit "::ffff:") (k := 7) eq_refl).
  reflexivity.
Qed.

Lemma loopback_selected
  {getaddrinfo : list ascii -> addrinfo_hints -> Z * list addrinfo}
  {addr6 : sockaddr_in6} {in6 : in6_addr} :
  length (s6_addr (sin6_addr addr6)) = 16 ->
  length (s6_addr in6) = 16 ->
  getaddrinfo (c_lit "127.0.0.1") resolver_hints =
    (0%Z, [inet_node [x7f; x00; x00; x01]]) ->
  Ndb_getInAddr6 addr6 getaddrinfo in6 (c_lit "127.0.0.1") =
  Ok (0%Z, {| s6_addr := v4mapped [x7f; x00; x00; x01] |}).
Proof.
  intros Hstack Hin6 Hres.
  unfold Ndb_getInAddr6; rewrite Hres; cbn [Z.eqb negb].
  change (get_preferred_address [inet_node [x7f; x00; x00; x01]])
    with (Ok [inet_node [x7f; x00; x00; x01]]); cbn [bind].
  now rewrite (get_in6_addr_inet (ai := inet_node [x7f; x00; x00; x01])
                 Hstack Hin6 eq_refl eq_refl eq_refl).
Qed.

(** C6. When the numeric rendering of an IPv6 address succeeds and its
    text starts with "::ffff:", the string Ndb_inet_ntop returns is that
    text without the prefix; so the address resolved from "127.0.0.1",
    formatted as IPv6, reads "127.0.0.1". *)
Theorem inet_ntop_strips_mapped_prefix
  {getnameinfo : sockaddr -> list ascii -> nat -> Z -> Z * list ascii} :
  (forall (src : list byte) (dst r rest : list ascii) (dst_size : nat),
     0 < dst_size ->
     16 <= length src ->
     no_nul r ->
     getnameinfo (numeric_sockaddr_in6 (firstn 16 src)) dst dst_size
       NI_NUMERICHOST = (0%Z, lit "::ffff:" ++ r ++ NUL :: rest) ->
     exists out,
       Ndb_inet_ntop getnameinfo AF_INET6 src dst dst_size = Ok out /\
       c_str out = Some r)
  /\
  (forall (getaddrinfo : list ascii -> addrinfo_hints -> Z * list addrinfo)
          (addr6 : sockaddr_in6) (in6 : in6_addr)
          (dst rest : list ascii) (dst_size : nat),
     0 < dst_size ->
     length (s6_addr (sin6_addr addr6)) = 16 ->
     length (s6_addr in6) = 16 ->
     getaddrinfo (c_lit "127.0.0.1") resolver_hints =
       (0%Z, [inet_node [x7f; x00; x00; x01]]) ->
     getnameinfo (numeric_sockaddr_in6 (v4mapped [x7f; x00; x00; x01]))
       dst dst_size NI_NUMERICHOST =
       (0%Z, lit "::ffff:" ++ lit "127.0.0.1" ++ NUL :: rest) ->
     exists addr out,
       Ndb_getInAddr6 addr6 getaddrinfo in6 (c_lit "127.0.0.1") =
         Ok (0%Z, addr) /\
       Ndb_inet_ntop getnameinfo AF_INET6 (s6_addr addr) dst dst_size =
         Ok out /\
       c_str out = Some (lit "127.0.0.1")).
Proof.
  split.
  - intros src dst r rest dst_size Hsize Hsrc Hr Hrender.
    rewrite (inet_ntop_mapped Hsize Hsrc Hr Hrender).
    eexists; split; [reflexivity|now apply c_str_app].
  - intros getaddrinfo addr6 in6 dst rest dst_size Hsize Hstack Hin6 Hres
      Hrender.
    assert (Hr : no_nul (lit "127.0.0.1")) by (cbv; intuition discriminate).
    rewrite (loopback_selected Hstack Hin6 Hres).
    do 2 eexists; split; [reflexivity|].
    cbn [s6_addr].
    rewrite (inet_ntop_mapped (src := v4mapped [x7f; x00; x00; x01])
               Hsize (le_n 16) Hr Hrender).
    split; [reflexivity|now apply c_str_app].
Qed.

Lemma inet_ntop_strips_mapped_prefix_witness :
  (exists out,
     Ndb_inet_ntop numeric_host AF_INET6 (v4mapped [x0a; x00; x00; x01])
       (buf 46) 46 = Ok out /\
     c_str out = Some (lit "10.0.0.1"))
  /\
  (exists addr out,
     Ndb_getInAddr6 zero_sockaddr_in6 getaddrinfo_loopback
       {| s6_addr := repeat xaa 16 |} (c_lit "127.0.0.1") = Ok (0%Z, addr) /\
     Ndb_inet_ntop numeric_host AF_INET6 (s6_addr addr) (buf 46) 46 = Ok out /\
     c_str out = Some (lit "127.0.0.1")).
Proof.
  split.
  - refine (proj1 (@inet_ntop_strips_mapped_prefix numeric_host)
              (v4mapped [x0a; x00; x00; x01]) (buf 46) (lit "10.0.0.1")
              (repeat "x"%char 30) 46 _ _ _ eq_refl).
    + lia.
    + cbv; lia.
    + cbv; intuition discriminate.
  - refine (proj2 (@inet_ntop_strips_mapped_prefix numeric_host)
              getaddrinfo_loopback zero_sockaddr_in6
              {| s6_addr := repeat xaa 16 |} (buf 46)
              (repeat "x"%char 29) 46 _ eq_refl eq_refl eq_refl eq_refl).
    lia.
Defined.

(** ** Ndb_split_string_address_port: inputs with a leading bracket *)

Lemma has_In {c : ascii} {s : list ascii} : has c s = true <-> In c s.
Proof.
  unfold has; rewrite existsb_exists; split.
  - intros (x & Hx & E); apply Ascii.eqb_eq in E; now subst.
  - intros H; exists c; split; auto; apply Ascii.eqb_refl.
Qed.

Lemma has_not_In {c : ascii} {s : list ascii} : has c s = false <-> ~ In c s.
Proof.
  rewrite <- has_In; destruct (has c s); split; intros H; auto;
    try discriminate; now elim H.
Qed.

Lemma load_at {m before rest : list ascii} {c : ascii} {k : nat} :
  m = before ++ c :: rest -> k = length before -> load m k = Ok c.
Proof.
  intros -> ->; unfold load.
  now rewrite nth_error_app2, Nat.sub_diag by lia.
Qed.

Lemma bracket_not_NUL : "["%char <> NUL.
Proof. discriminate. Qed.

Lemma close_not_NUL : "]"%char <> NUL.
Proof. discriminate. Qed.

(** No closing bracket: failure, nothing written. *)
Lemma split_bracket_unclosed
  {t tail host serv : list ascii} {hostlen servlen : nat} :
  no_nul t -> ~ In "]"%char t ->
  Ndb_split_string_address_port
    (("["%char :: t) ++ NUL :: tail) host hostlen serv servlen =
  Ok ((-1)%Z, host, serv).
Proof.
  intros Ht Hc.
  remember (("["%char :: t) ++ NUL :: tail) as arg eqn:Harg.
  assert (Earg : arg = [] ++ ("["%char :: t) ++ NUL :: tail)
    by (subst arg; reflexivity).
  assert (Hno : ~ In "]"%char ("["%char :: t))
    by (intros [H|H]; [discriminate H|auto]).
  assert (Hnn : no_nul ("["%char :: t))
    by (apply no_nul_cons; split; auto using bracket_not_NUL).
  unfold Ndb_split_string_address_port.
  rewrite (load_at (before := []) (k := 0) Earg eq_refl); cbn [bind].
  change (Ascii.eqb "[" "[") with true; cbv iota.
  rewrite (strchr_at_absent (k := 0) Earg eq_refl Hno Hnn close_not_NUL).
  reflexivity.
Qed.

(** A character other than ':' behind the closing bracket: failure,
    nothing written. *)
Lemma split_bracket_junk
  {h a tail host serv : list ascii} {c : ascii} {hostlen servlen : nat} :
  no_nul h -> ~ In "]"%char h -> c <> ":"%char -> c <> NUL ->
  Ndb_split_string_address_port
    (("["%char :: h ++ "]"%char :: c :: a) ++ NUL :: tail)
    host hostlen serv servlen =
  Ok ((-1)%Z, host, serv).
Proof.
  intros Hh Hc Hcc Hcn.
  remember (("["%char :: h ++ "]"%char :: c :: a) ++ NUL :: tail)
    as arg eqn:Harg.
  assert (E0 : arg = [] ++ "["%char :: (h ++ "]"%char :: c :: a) ++
                     NUL :: tail) by (subst arg; reflexivity).
  assert (E1 : arg = [] ++ ("["%char :: h) ++ "]"%char ::
                     (c :: a) ++ NUL :: tail)
    by (subst arg; cbn [app]; now rewrite <- app_assoc).
  assert (E2 : arg = ("["%char :: h ++ ["]"%char]) ++ c :: a ++ NUL :: tail)
    by (subst arg; cbn [app]; now rewrite <- !app_assoc).
  assert (Hno : ~ In "]"%char ("["%char :: h))
    by (intros [H|H]; [discriminate H|auto]).
  assert (Hnn : no_nul ("["%char :: h))
    by (apply no_nul_cons; split; auto using bracket_not_NUL).
  assert (Hlen : length ("["%char :: h) + 1 =
                 length ("["%char :: h ++ ["]"%char]))
    by (cbn [length]; rewrite length_app; simpl; lia).
  unfold Ndb_split_string_address_port.
  rewrite (load_at (k := 0) E0 eq_refl); cbn [bind].
  change (Ascii.eqb "[" "[") with true; cbv iota.
  rewrite (strchr_at_found (k := 0) E1 eq_refl Hno Hnn); cbn [bind plus].
  rewrite (load_at E2 Hlen); cbn [bind].
  replace (Ascii.eqb c ":") with false
    by (symmetry; now apply Ascii.eqb_neq).
  replace (Ascii.eqb c NUL) with false
    by (symmetry; now apply Ascii.eqb_neq).
  reflexivity.
Qed.

(** ':' behind the closing bracket.  The three checks in the order of the
    code: the host fits, the service fits, the host holds a colon. *)
Lemma split_bracket_port
  {h p tail host serv : list ascii} {hostlen servlen : nat} :
  no_nul h -> no_nul p -> ~ In "]"%char h ->
  hostlen <= length host -> servlen <= length serv ->
  Ndb_split_string_address_port
    (("["%char :: h ++ "]"%char :: ":"%char :: p) ++ NUL :: tail)
    host hostlen serv servlen =
  if (length h <? hostlen) && (length p <? servlen) && has ":" h
  then Ok (0%Z,
           h ++ NUL :: skipn (S (length h)) host,
           p ++ repeat NUL (servlen - length p) ++ skipn servlen serv)
  else Ok ((-1)%Z, host, serv).
Proof.
  intros Hh Hp Hc Hhost Hserv.
  remember (("["%char :: h ++ "]"%char :: ":"%char :: p) ++ NUL :: tail)
    as arg eqn:Harg.
  assert (E0 : arg = [] ++ "["%char :: (h ++ "]"%char :: ":"%char :: p) ++
                     NUL :: tail) by (subst arg; reflexivity).
  assert (E1 : arg = [] ++ ("["%char :: h) ++ "]"%char ::
                     (":"%char :: p) ++ NUL :: tail)
    by (subst arg; cbn [app]; now rewrite <- app_assoc).
  assert (E2 : arg = ("["%char :: h ++ ["]"%char]) ++ ":"%char ::
                     p ++ NUL :: tail)
    by (subst arg; cbn [app]; now rewrite <- !app_assoc).
  assert (E3 : arg = ("["%char :: h ++ ["]"%char; ":"%char]) ++
                     p ++ NUL :: tail)
    by (subst arg; cbn [app]; now rewrite <- !app_assoc).
  assert (E4 : arg = ["["%char] ++ h ++ "]"%char :: ":"%char ::
                     p ++ NUL :: tail)
    by (subst arg; cbn [app]; now rewrite <- !app_assoc).
  assert (Hno : ~ In "]"%char ("["%char :: h))
    by (intros [H|H]; [discriminate H|auto]).
  assert (Hnn : no_nul ("["%char :: h))
    by (apply no_nul_cons; split; auto using bracket_not_NUL).
  assert (Hlen2 : length ("["%char :: h) + 1 =
                  length ("["%char :: h ++ ["]"%char]))
    by (cbn [length]; rewrite length_app; simpl; lia).
  assert (Hlen3 : length ("["%char :: h) + 1 + 1 =
                  length ("["%char :: h ++ ["]"%char; ":"%char]))
    by (cbn [length]; rewrite length_app; simpl; lia).
  unfold Ndb_split_string_address_port.
  rewrite (load_at (k := 0) E0 eq_refl); cbn [bind].
  change (Ascii.eqb "[" "[") with true; cbv iota.
  rewrite (strchr_at_found (k := 0) E1 eq_refl Hno Hnn); cbn [bind plus].
  rewrite (load_at E2 Hlen2); cbn [bind].
  change (Ascii.eqb ":" ":") with true; cbn [orb]; cbv iota.
  replace (length ("["%char :: h) + 1 - 0 - 2) with (length h)
    by (cbn [length]; lia).
  destruct (Nat.ltb_spec (length h) hostlen) as [Hhl|Hhl]; cbn [andb].
  2:{ replace (hostlen <=? length h) with true
        by (symmetry; apply Nat.leb_le; lia).
      reflexivity. }
  replace (hostlen <=? length h) with false
    by (symmetry; apply Nat.leb_gt; lia).
  rewrite (strlen_at E3 Hlen3 Hp); cbn [bind].
  destruct (Nat.ltb_spec (length p) servlen) as [Hsl|Hsl]; cbn [andb].
  2:{ replace (servlen <=? length p) with true
        by (symmetry; apply Nat.leb_le; lia).
      reflexivity. }
  replace (servlen <=? length p) with false
    by (symmetry; apply Nat.leb_gt; lia).
  destruct (has ":" h) eqn:Hcolon.
  - apply has_In in Hcolon.
    destruct (first_occurrence Hcolon) as (h1 & h2 & Eh & Hh1).
    assert (E5 : arg = ["["%char] ++ h1 ++ ":"%char ::
                       h2 ++ "]"%char :: ":"%char :: p ++ NUL :: tail)
      by (rewrite E4, Eh; now rewrite <- app_assoc).
    assert (Hh1n : no_nul h1)
      by (rewrite Eh in Hh; now apply no_nul_app in Hh).
    rewrite (strchr_at_found (k := 1) E5 eq_refl Hh1 Hh1n); cbn [bind].
    replace (length ("["%char :: h) + 1 <=? 1 + length h1) with false
      by (symmetry; apply Nat.leb_gt; rewrite Eh; cbn [length];
          rewrite length_app; simpl; lia).
    rewrite (strncpy_exact (dst := host) (k := 1) E4 eq_refl eq_refl Hh)
      by lia; cbn [bind].
    rewrite store_terminator by lia; cbn [bind].
    rewrite (strncpy_pad (dst := serv) E3 Hlen3 Hp Hsl Hserv); cbn [bind].
    reflexivity.
  - apply has_not_In in Hcolon.
    assert (E5 : arg = ["["%char] ++ (h ++ ["]"%char]) ++ ":"%char ::
                       p ++ NUL :: tail)
      by (rewrite E4; now rewrite <- app_assoc).
    assert (Hpre : ~ In ":"%char (h ++ ["]"%char])).
    { intros H; apply in_app_or in H; destruct H as [H|[H|[]]]; auto.
      discriminate H. }
    assert (Hpren : no_nul (h ++ ["]"%char])).
    { apply no_nul_app; split; auto.
      intros [H|[]]; discriminate H. }
    rewrite (strchr_at_found (k := 1) E5 eq_refl Hpre Hpren); cbn [bind].
    replace (length ("["%char :: h) + 1 <=? 1 + length (h ++ ["]"%char]))
      with true
      by (symmetry; apply Nat.leb_le; cbn [length]; rewrite length_app;
          simpl; lia).
    reflexivity.
Qed.

Lemma strlen_at_unterminated {m before rest : list ascii} {k : nat} :
  m = before ++ rest -> k = length before -> no_nul rest ->
  strlen m k = Fault (OobRead (length m)).
Proof.
  intros -> -> Hr; unfold strlen.
  now rewrite skipn_length_app, strlen_from_unterminated, length_app.
Qed.

(** The string ends behind the closing bracket.  The service check
    measures the cells behind the terminator of the input: [g] is the
    string that happens to lie there. *)
Lemma split_bracket_eos
  {h g tail host serv : list ascii} {hostlen servlen : nat} :
  no_nul h -> no_nul g -> ~ In "]"%char h ->
  hostlen <= length host -> servlen <= length serv ->
  Ndb_split_string_address_port
    (("["%char :: h ++ ["]"%char]) ++ NUL :: g ++ NUL :: tail)
    host hostlen serv servlen =
  if (length h <? hostlen) && (length g <? servlen) && has ":" h
  then Ok (0%Z, h ++ NUL :: skipn (S (length h)) host, NUL :: skipn 1 serv)
  else Ok ((-1)%Z, host, serv).
Proof.
  intros Hh Hg Hc Hhost Hserv.
  remember (("["%char :: h ++ ["]"%char]) ++ NUL :: g ++ NUL :: tail)
    as arg eqn:Harg.
  assert (E0 : arg = [] ++ "["%char :: (h ++ ["]"%char]) ++
                     NUL :: g ++ NUL :: tail) by (subst arg; reflexivity).
  assert (E1 : arg = [] ++ ("["%char :: h) ++ "]"%char ::
                     NUL :: g ++ NUL :: tail)
    by (subst arg; cbn [app]; now rewrite <- app_assoc).
  assert (E2 : arg = ("["%char :: h ++ ["]"%char]) ++ NUL ::
                     g ++ NUL :: tail) by (subst arg; reflexivity).
  assert (E3 : arg = ("["%char :: h ++ ["]"%char; NUL]) ++
                     g ++ NUL :: tail)
    by (subst arg; cbn [app]; now rewrite <- !app_assoc).
  assert (E4 : arg = ["["%char] ++ h ++ "]"%char :: NUL ::
                     g ++ NUL :: tail)
    by (subst arg; cbn [app]; now rewrite <- !app_assoc).
  assert (Hno : ~ In "]"%char ("["%char :: h))
    by (intros [H|H]; [discriminate H|auto]).
  assert (Hnn : no_nul ("["%char :: h))
    by (apply no_nul_cons; split; auto using bracket_not_NUL).
  assert (Hlen2 : length ("["%char :: h) + 1 =
                  length ("["%char :: h ++ ["]"%char]))
    by (cbn [length]; rewrite length_app; simpl; lia).
  assert (Hlen3 : length ("["%char :: h) + 1 + 1 =
                  length ("["%char :: h ++ ["]"%char; NUL]))
    by (cbn [length]; rewrite length_app; simpl; lia).
  unfold Ndb_split_string_address_port.
  rewrite (load_at (k := 0) E0 eq_refl); cbn [bind].
  change (Ascii.eqb "[" "[") with true; cbv iota.
  rewrite (strchr_at_found (k := 0) E1 eq_refl Hno Hnn); cbn [bind plus].
  rewrite (load_at E2 Hlen2); cbn [bind].
  change (Ascii.eqb NUL ":") with false.
  change (Ascii.eqb NUL NUL) with true; cbn [orb]; cbv iota.
  replace (length ("["%char :: h) + 1 - 0 - 2) with (length h)
    by (cbn [length]; lia).
  destruct (Nat.ltb_spec (length h) hostlen) as [Hhl|Hhl]; cbn [andb].
  2:{ replace (hostlen <=? length h) with true
        by (symmetry; apply Nat.leb_le; lia).
      reflexivity. }
  replace (hostlen <=? length h) with false
    by (symmetry; apply Nat.leb_gt; lia).
  rewrite (strlen_at E3 Hlen3 Hg); cbn [bind].
  destruct (Nat.ltb_spec (length g) servlen) as [Hsl|Hsl]; cbn [andb].
  2:{ replace (servlen <=? length g) with true
        by (symmetry; apply Nat.leb_le; lia).
      reflexivity. }
  replace (servlen <=? length g) with false
    by (symmetry; apply Nat.leb_gt; lia).
  destruct (has ":" h) eqn:Hcolon.
  - apply has_In in Hcolon.
    destruct (first_occurrence Hcolon) as (h1 & h2 & Eh & Hh1).
    assert (E5 : arg = ["["%char] ++ h1 ++ ":"%char ::
                       h2 ++ "]"%char :: NUL :: g ++ NUL :: tail)
      by (rewrite E4, Eh; now rewrite <- app_assoc).
    assert (Hh1n : no_nul h1)
      by (rewrite Eh in Hh; now apply no_nul_app in Hh).
    rewrite (strchr_at_found (k := 1) E5 eq_refl Hh1 Hh1n); cbn [bind].
    replace (length ("["%char :: h) + 1 <=? 1 + length h1) with false
      by (symmetry; apply Nat.leb_gt; rewrite Eh; cbn [length];
          rewrite length_app; simpl; lia).
    rewrite (strncpy_exact (dst := host) (k := 1) E4 eq_refl eq_refl Hh)
      by lia; cbn [bind].
    rewrite store_terminator by lia; cbn [bind].
    rewrite store_0 by (simpl; lia); cbn [bind].
    reflexivity.
  - apply has_not_In in Hcolon.
    assert (E5 : arg = ["["%char] ++ (h ++ ["]"%char]) ++ NUL ::
                       g ++ NUL :: tail)
      by (rewrite E4; now rewrite <- app_assoc).
    assert (Hpre : ~ In ":"%char (h ++ ["]"%char])).
    { intros H; apply in_app_or in H; destruct H as [H|[H|[]]]; auto.
      discriminate H. }
    assert (Hpren : no_nul (h ++ ["]"%char])).
    { apply no_nul_app; split; auto.
      intros [H|[]]; discriminate H. }
    rewrite (strchr_at_absent (k := 1) E5 eq_refl Hpre Hpren colon_not_NUL).
    reflexivity.
Qed.

(** The same input with nothing, or no terminator, behind its own
    terminator: when the host fits, the service check runs off the end
    of the object. *)
Lemma split_bracket_eos_fault
  {h rest host serv : list ascii} {hostlen servlen : nat} :
  no_nul h -> no_nul rest -> ~ In "]"%char h ->
  length h < hostlen ->
  Ndb_split_string_address_port
    (("["%char :: h ++ ["]"%char]) ++ NUL :: rest) host hostlen serv servlen =
  Fault (OobRead (length h + 3 + length rest)).
Proof.
  intros Hh Hr Hc Hhl.
  remember (("["%char :: h ++ ["]"%char]) ++ NUL :: rest) as arg eqn:Harg.
  assert (E0 : arg = [] ++ "["%char :: (h ++ ["]"%char]) ++ NUL :: rest)
    by (subst arg; reflexivity).
  assert (E1 : arg = [] ++ ("["%char :: h) ++ "]"%char :: NUL :: rest)
    by (subst arg; cbn [app]; now rewrite <- app_assoc).
  assert (E2 : arg = ("["%char :: h ++ ["]"%char]) ++ NUL :: rest)
    by (subst arg; reflexivity).
  assert (E3 : arg = ("["%char :: h ++ ["]"%char; NUL]) ++ rest)
    by (subst arg; cbn [app]; now rewrite <- !app_assoc).
  assert (Hno : ~ In "]"%char ("["%char :: h))
    by (intros [H|H]; [discriminate H|auto]).
  assert (Hnn : no_nul ("["%char :: h))
    by (apply no_nul_cons; split; auto using bracket_not_NUL).
  assert (Hlen2 : length ("["%char :: h) + 1 =
                  length ("["%char :: h ++ ["]"%char]))
    by (cbn [length]; rewrite length_app; simpl; lia).
  assert (Hlen3 : length ("["%char :: h) + 1 + 1 =
                  length ("["%char :: h ++ ["]"%char; NUL]))
    by (cbn [length]; rewrite length_app; simpl; lia).
  assert (Hlen : length arg = length h + 3 + length rest)
    by (rewrite E3, length_app; cbn [length]; rewrite length_app; simpl; lia).
  unfold Ndb_split_string_address_port.
  rewrite (load_at (k := 0) E0 eq_refl); cbn [bind].
  change (Ascii.eqb "[" "[") with true; cbv iota.
  rewrite (strchr_at_found (k := 0) E1 eq_refl Hno Hnn); cbn [bind plus].
  rewrite (load_at E2 Hlen2); cbn [bind].
  change (Ascii.eqb NUL ":") with false.
  change (Ascii.eqb NUL NUL) with true; cbn [orb]; cbv iota.
  replace (length ("["%char :: h) + 1 - 0 - 2) with (length h)
    by (cbn [length]; lia).
  replace (hostlen <=? length h) with false
    by (symmetry; apply Nat.leb_gt; lia).
  rewrite (strlen_at_unterminated E3 Hlen3 Hr); cbn [bind].
  now rewrite Hlen.
Qed.

(** Outside the case "end of string behind ']'" the code delivers what
    the first parsing rule asks for, whatever lies behind the input. *)
Lemma split_bracket_refines_spec
  {t tail host serv : list ascii} {hostlen servlen : nat} :
  no_nul t ->
  hostlen <= length host -> servlen <= length serv ->
  (In "]"%char t -> text_after "]" t <> []) ->
  delivers
    (Ndb_split_string_address_port
       (("["%char :: t) ++ NUL :: tail) host hostlen serv servlen)
    (spec_split_bracket ("["%char :: t) hostlen servlen)
    host serv.
Proof.
  intros Ht Hhost Hserv Hnot_eos.
  unfold spec_split_bracket.
  change (negb (Ascii.eqb "[" "[")) with false; cbv iota.
  destruct (has "]" t) eqn:Hclose; cbn [negb].
  2:{ apply has_not_In in Hclose.
      exact (split_bracket_unclosed Ht Hclose). }
  apply has_In in Hclose.
  specialize (Hnot_eos Hclose).
  destruct (first_occurrence Hclose) as (h & a & -> & Hh).
  rewrite (text_before_app Hh), (text_after_app Hh) in *.
  apply no_nul_app in Ht; destruct Ht as [Hhn Ha].
  apply no_nul_cons in Ha; destruct Ha as [_ Ha].
  destruct a as [|c p]; [congruence|].
  apply no_nul_cons in Ha; destruct Ha as [Hcn Hp].
  destruct (Ascii.eqb c ":") eqn:Ec.
  - apply Ascii.eqb_eq in Ec; subst c.
    rewrite (split_bracket_port Hhn Hp Hh Hhost Hserv).
    unfold fits.
    destruct (has ":" h); cbn [negb andb];
      [|rewrite andb_false_r; reflexivity].
    rewrite andb_true_r.
    destruct (Nat.ltb_spec (length h) hostlen) as [Hhl|Hhl]; cbn [andb];
      [|reflexivity].
    destruct (Nat.ltb_spec (length p) servlen) as [Hsl|Hsl]; [|reflexivity].
    do 2 eexists; split; [reflexivity|]; split.
    + now apply c_str_app.
    + now apply c_str_padded.
  - apply Ascii.eqb_neq in Ec.
    rewrite (split_bracket_junk Hhn Hh Ec Hcn).
    destruct (has ":" h); reflexivity.
Qed.

(** ** Failure returns *)

Ltac split_cases H :=
  repeat match type of H with
         | context [match ?x with _ => _ end] =>
             destruct x eqn:?; try discriminate H
         end.

(** The return code is 0 or -1, and on -1 both buffers are as they
    were. *)
Lemma split_failure_keeps_buffers
  {arg host serv host' serv' : list ascii} {hostlen servlen : nat} {rc : Z} :
  Ndb_split_string_address_port arg host hostlen serv servlen =
    Ok (rc, host', serv') ->
  rc = 0%Z \/ (rc = (-1)%Z /\ host' = host /\ serv' = serv).
Proof.
  unfold Ndb_split_string_address_port, bind; intros H.
  split_cases H; inversion H; subst; auto.
Qed.

(** Ndb_getInAddr6 returns 0 or -1, and on -1 the destination is as it
    was. *)
Lemma getInAddr6_failure_keeps_address
  {addr6 : sockaddr_in6}
  {getaddrinfo : list ascii -> addrinfo_hints -> Z * list addrinfo}
  {dst dst' : in6_addr} {address : list ascii} {rc : Z} :
  Ndb_getInAddr6 addr6 getaddrinfo dst address = Ok (rc, dst') ->
  rc = 0%Z \/ (rc = (-1)%Z /\ dst' = dst).
Proof.
  unfold Ndb_getInAddr6, get_in6_addr, bind; intros H.
  split_cases H; inversion H; subst; auto.
Qed.

(** Outside the contract: a service buffer of capacity 0, which has no
    room for the terminator of an empty service, with the input
    "myhost".  The third rule stores the terminator without a check:
    outside the buffer when the buffer has no cell, and with return
    code 0 when the object behind it has one. *)
Theorem split_empty_service_without_room :
  Ndb_split_string_address_port (c_lit "myhost") (buf 16) 16 [] 0 =
    Fault (OobWrite 0)
  /\
  Ndb_split_string_address_port (c_lit "myhost") (buf 16) 16 (buf 4) 0 =
    Ok (0%Z, lit "myhost" ++ repeat NUL 10, NUL :: buf 3).
Proof. split; reflexivity. Qed.

(** C3. The input "[::1]" in a buffer that held a longer string before:
    the first parsing rule asks for host "::1" and an empty service, both
    of which fit; the code answers -1, because it takes the length of
    the cells behind the terminator for the length of the service. *)
Theorem split_bracket_eos_against_spec :
  c_str (c_lit "[::1]" ++ c_lit "db8::1]:1186") = Some (lit "[::1]")
  /\
  spec_split_bracket (lit "[::1]") 16 8 = Some (lit "::1", [])
  /\
  Ndb_split_string_address_port
    (c_lit "[::1]" ++ c_lit "db8::1]:1186") (buf 16) 16 (buf 8) 8 =
  Ok ((-1)%Z, buf 16, buf 8).
Proof. repeat split; reflexivity. Qed.

(** C10. The input "[::1]" as a string literal, six cells with the
    terminator at offset 5: the service check loads offset 6.  And two
    objects that hold the same string get different answers, by what
    lies behind the terminator. *)
Theorem split_reads_behind_terminator :
  length (c_lit "[::1]") = 6
  /\
  Ndb_split_string_address_port (c_lit "[::1]") (buf 16) 16 (buf 8) 8 =
    Fault (OobRead 6)
  /\
  Ndb_split_string_address_port
    (c_lit "[::1]" ++ c_lit "") (buf 16) 16 (buf 8) 8 =
    Ok (0%Z, lit "::1" ++ NUL :: buf 12, NUL :: buf 7)
  /\
  Ndb_split_string_address_port
    (c_lit "[::1]" ++ c_lit "12345678") (buf 16) 16 (buf 8) 8 =
    Ok ((-1)%Z, buf 16, buf 8).
Proof. repeat split; reflexivity. Qed.

(** The two truncation checks of the second and third rule. *)
Lemma split_single_colon_truncated
  {h p tail host serv : list ascii} {hostlen servlen : nat} :
  no_nul h -> no_nul p -> ~ In ":"%char h -> ~ In ":"%char p ->
  (forall t, h ++ ":"%char :: p <> "["%char :: t) ->
  hostlen <= length h \/ servlen <= length p ->
  Ndb_split_string_address_port
    ((h ++ ":"%char :: p) ++ NUL :: tail) host hostlen serv servlen =
  Ok ((-1)%Z, host, serv).
Proof.
  intros Hh Hp Hch Hcp Hb Hlong.
  destruct (head_not_bracket (rest := tail) Hb) as (c0 & m0 & E0 & Hc0).
  remember ((h ++ ":"%char :: p) ++ NUL :: tail) as arg eqn:Harg.
  assert (Earg : arg = [] ++ h ++ ":"%char :: p ++ NUL :: tail)
    by (subst arg; now rewrite <- app_assoc).
  assert (Earg' : arg = (h ++ [":"%char]) ++ p ++ NUL :: tail)
    by (subst arg; now rewrite <- !app_assoc).
  assert (Hlen : length h + 1 = length (h ++ [":"%char]))
    by (rewrite length_app; reflexivity).
  unfold Ndb_split_string_address_port.
  rewrite E0, load_head; cbn [bind]; rewrite Hc0, <- E0.
  rewrite (strchr_at_found (k := 0) Earg eq_refl Hch Hh); cbn [bind plus].
  rewrite (strchr_at_absent Earg' Hlen Hcp Hp colon_not_NUL); cbn [bind].
  rewrite Nat.sub_0_r.
  destruct (Nat.leb_spec hostlen (length h)) as [Hhl|Hhl]; [reflexivity|].
  rewrite (strlen_at Earg' Hlen Hp); cbn [bind].
  replace (servlen <=? length p) with true
    by (symmetry; apply Nat.leb_le; lia).
  reflexivity.
Qed.

Lemma split_whole_truncated
  {s tail host serv : list ascii} {hostlen servlen : nat} :
  no_nul s -> (forall t, s <> "["%char :: t) -> colons s <> 1 ->
  hostlen <= length s ->
  Ndb_split_string_address_port (s ++ NUL :: tail) host hostlen serv servlen =
  Ok ((-1)%Z, host, serv).
Proof.
  intros Hs Hb H1 Hlong.
  destruct (head_not_bracket (rest := tail) Hb) as (c0 & m0 & E0 & Hc0).
  remember (s ++ NUL :: tail) as arg eqn:Harg.
  assert (Earg0 : arg = [] ++ s ++ NUL :: tail) by (subst arg; reflexivity).
  unfold Ndb_split_string_address_port.
  rewrite E0, load_head; cbn [bind]; rewrite Hc0, <- E0.
  destruct (not_one_colon H1) as [Hnone | (h & p1 & p2 & Es & Hch & Hcp)].
  - rewrite (strchr_at_absent (k := 0) Earg0 eq_refl Hnone Hs colon_not_NUL);
      cbn [bind].
    rewrite (strlen_at (k := 0) Earg0 eq_refl Hs); cbn [bind].
    replace (hostlen <=? length s) with true
      by (symmetry; apply Nat.leb_le; lia).
    reflexivity.
  - assert (Hparts : no_nul h /\ no_nul p1).
    { pose proof Hs as Hs'; rewrite Es in Hs'.
      apply no_nul_app in Hs'; destruct Hs' as [Hh Hs'].
      apply no_nul_cons in Hs'; destruct Hs' as [_ Hs'].
      apply no_nul_app in Hs'; tauto. }
    destruct Hparts as [Hh Hp1].
    assert (Earg : arg = [] ++ h ++ ":"%char ::
                         (p1 ++ ":"%char :: p2) ++ NUL :: tail)
      by (rewrite Earg0, Es; cbn [app]; now rewrite <- app_assoc).
    assert (Earg' : arg = (h ++ [":"%char]) ++ p1 ++ ":"%char ::
                          p2 ++ NUL :: tail)
      by (rewrite Earg; cbn [app]; now rewrite <- !app_assoc).
    assert (Hlen : length h + 1 = length (h ++ [":"%char]))
      by (rewrite length_app; reflexivity).
    rewrite (strchr_at_found (k := 0) Earg eq_refl Hch Hh); cbn [bind plus].
    rewrite (strchr_at_found Earg' Hlen Hcp Hp1); cbn [bind].
    rewrite (strlen_at (k := 0) Earg0 eq_refl Hs); cbn [bind].
    replace (hostlen <=? length s) with true
      by (symmetry; apply Nat.leb_le; lia).
    reflexivity.
Qed.

(** The bracket form with a port: a host or a service without room is
    refused before anything is stored, whatever the buffers are. *)
Lemma split_bracket_port_truncated
  {h p tail host serv : list ascii} {hostlen servlen : nat} :
  no_nul h -> no_nul p -> ~ In "]"%char h ->
  hostlen <= length h \/ servlen <= length p ->
  Ndb_split_string_address_port
    (("["%char :: h ++ "]"%char :: ":"%char :: p) ++ NUL :: tail)
    host hostlen serv servlen =
  Ok ((-1)%Z, host, serv).
Proof.
  intros Hh Hp Hc Hlong.
  remember (("["%char :: h ++ "]"%char :: ":"%char :: p) ++ NUL :: tail)
    as arg eqn:Harg.
  assert (E0 : arg = [] ++ "["%char :: (h ++ "]"%char :: ":"%char :: p) ++
                     NUL :: tail) by (subst arg; reflexivity).
  assert (E1 : arg = [] ++ ("["%char :: h) ++ "]"%char ::
                     (":"%char :: p) ++ NUL :: tail)
    by (subst arg; cbn [app]; now rewrite <- app_assoc).
  assert (E2 : arg = ("["%char :: h ++ ["]"%char]) ++ ":"%char ::
                     p ++ NUL :: tail)
    by (subst arg; cbn [app]; now rewrite <- !app_assoc).
  assert (E3 : arg = ("["%char :: h ++ ["]"%char; ":"%char]) ++
                     p ++ NUL :: tail)
    by (subst arg; cbn [app]; now rewrite <- !app_assoc).
  assert (Hno : ~ In "]"%char ("["%char :: h))
    by (intros [H|H]; [discriminate H|auto]).
  assert (Hnn : no_nul ("["%char :: h))
    by (apply no_nul_cons; split; auto using bracket_not_NUL).
  assert (Hlen2 : length ("["%char :: h) + 1 =
                  length ("["%char :: h ++ ["]"%char]))
    by (cbn [length]; rewrite length_app; simpl; lia).
  assert (Hlen3 : length ("["%char :: h) + 1 + 1 =
                  length ("["%char :: h ++ ["]"%char; ":"%char]))
    by (cbn [length]; rewrite length_app; simpl; lia).
  unfold Ndb_split_string_address_port.
  rewrite (load_at (k := 0) E0 eq_refl); cbn [bind].
  change (Ascii.eqb "[" "[") with true; cbv iota.
  rewrite (strchr_at_found (k := 0) E1 eq_refl Hno Hnn); cbn [bind plus].
  rewrite (load_at E2 Hlen2); cbn [bind].
  change (Ascii.eqb ":" ":") with true; cbn [orb]; cbv iota.
  replace (length ("["%char :: h) + 1 - 0 - 2) with (length h)
    by (cbn [length]; lia).
  destruct (Nat.leb_spec hostlen (length h)) as [Hhl|Hhl]; [reflexivity|].
  rewrite (strlen_at E3 Hlen3 Hp); cbn [bind].
  replace (servlen <=? length p) with true
    by (symmetry; apply Nat.leb_le; lia).
  reflexivity.
Qed.

(** The bracket form that ends behind the closing bracket: a host
    without room is refused before the service is measured, so the
    cells behind the terminator are not read. *)
Lemma split_bracket_eos_host_too_long
  {h rest host serv : list ascii} {hostlen servlen : nat} :
  no_nul h -> ~ In "]"%char h -> hostlen <= length h ->
  Ndb_split_string_address_port
    (("["%char :: h ++ ["]"%char]) ++ NUL :: rest) host hostlen serv servlen =
  Ok ((-1)%Z, host, serv).
Proof.
  intros Hh Hc Hlong.
  remember (("["%char :: h ++ ["]"%char]) ++ NUL :: rest) as arg eqn:Harg.
  assert (E0 : arg = [] ++ "["%char :: (h ++ ["]"%char]) ++ NUL :: rest)
    by (subst arg; reflexivity).
  assert (E1 : arg = [] ++ ("["%char :: h) ++ "]"%char :: NUL :: rest)
    by (subst arg; cbn [app]; now rewrite <- app_assoc).
  assert (E2 : arg = ("["%char :: h ++ ["]"%char]) ++ NUL :: rest)
    by (subst arg; reflexivity).
  assert (Hno : ~ In "]"%char ("["%char :: h))
    by (intros [H|H]; [discriminate H|auto]).
  assert (Hnn : no_nul ("["%char :: h))
    by (apply no_nul_cons; split; auto using bracket_not_NUL).
  assert (Hlen2 : length ("["%char :: h) + 1 =
                  length ("["%char :: h ++ ["]"%char]))
    by (cbn [length]; rewrite length_app; simpl; lia).
  unfold Ndb_split_string_address_port.
  rewrite (load_at (k := 0) E0 eq_refl); cbn [bind].
  change (Ascii.eqb "[" "[") with true; cbv iota.
  rewrite (strchr_at_found (k := 0) E1 eq_refl Hno Hnn); cbn [bind plus].
  rewrite (load_at E2 Hlen2); cbn [bind].
  change (Ascii.eqb NUL ":") with false.
  change (Ascii.eqb NUL NUL) with true; cbn [orb]; cbv iota.
  replace (length ("["%char :: h) + 1 - 0 - 2) with (length h)
    by (cbn [length]; lia).
  replace (hostlen <=? length h) with true
    by (symmetry; apply Nat.leb_le; lia).
  reflexivity.
Qed.

(** A host or a service without room, in each of the three rules, for
    a service buffer with at least one cell. *)
Lemma split_refuses_truncation
  {s tail host serv h p : list ascii} {hostlen servlen : nat} :
  no_nul s -> 0 < servlen ->
  spec_extract s = Some (h, p) ->
  hostlen <= length h \/ servlen <= length p ->
  Ndb_split_string_address_port (s ++ NUL :: tail) host hostlen serv servlen =
  Ok ((-1)%Z, host, serv).
Proof.
  intros Hs Hroom Hx Hlong.
  destruct s as [|c0 t].
  { cbn [spec_extract] in Hx; injection Hx as <- <-.
    apply split_whole_truncated;
      [ exact Hs | intros t' E; discriminate E | intros E; discriminate E
      | cbn [length] in *; lia ]. }
  unfold spec_extract in Hx.
  destruct (Ascii.eqb c0 "[") eqn:Hc0.
  - apply Ascii.eqb_eq in Hc0; subst c0.
    apply no_nul_cons in Hs; destruct Hs as [_ Ht].
    destruct (has "]" t) eqn:Hclose; [|discriminate Hx].
    apply has_In in Hclose.
    destruct (first_occurrence Hclose) as (pre & post & Et & Hpre).
    subst t.
    rewrite (text_before_app Hpre), (text_after_app Hpre) in Hx.
    apply no_nul_app in Ht; destruct Ht as [Hpren Hpost].
    apply no_nul_cons in Hpost; destruct Hpost as [_ Hpost].
    destruct post as [|c q].
    + injection Hx as <- <-.
      apply split_bracket_eos_host_too_long; auto.
      cbn [length] in Hlong; lia.
    + destruct (Ascii.eqb c ":") eqn:Hc; [|discriminate Hx].
      apply Ascii.eqb_eq in Hc; subst c.
      injection Hx as <- <-.
      apply no_nul_cons in Hpost; destruct Hpost as [_ Hq].
      apply split_bracket_port_truncated; auto.
  - assert (Hb : forall t', c0 :: t <> "["%char :: t').
    { intros t' E; injection E as E _; subst c0.
      rewrite Ascii.eqb_refl in Hc0; discriminate Hc0. }
    destruct (Nat.eqb_spec (colons (c0 :: t)) 1) as [H1|H1].
    + destruct (one_colon H1) as (h1 & p1 & Es & Hch & Hcp).
      rewrite Es in Hx, Hs, Hb |- *.
      rewrite (text_before_app Hch), (text_after_app Hch) in Hx.
      injection Hx as <- <-.
      apply no_nul_app in Hs; destruct Hs as [Hh1 Hs].
      apply no_nul_cons in Hs; destruct Hs as [_ Hp1].
      apply split_single_colon_truncated; auto.
    + injection Hx as <- <-.
      apply split_whole_truncated; auto.
      cbn [length] in *; lia.
Qed.

(** C2. Truncation is a failure, and a failure leaves the outputs as
    they were.  For an input string [s] and a service buffer with at
    least one cell (a buffer of capacity 0 is outside the contract):
    when the host or the service that the parsing rules extract from
    [s] has no room (length >= hostlen, length >= servlen),
    Ndb_split_string_address_port returns -1.  And every return of
    Ndb_split_string_address_port other than 0 is -1 with host and serv
    as they were, every return of Ndb_getInAddr6 other than 0 is -1
    with the destination address as it was. *)
Theorem split_truncation_fails_and_failures_keep_outputs
  {s tail host serv : list ascii} {hostlen servlen : nat} :
  no_nul s -> 0 < servlen ->
  (forall h p,
     spec_extract s = Some (h, p) ->
     hostlen <= length h \/ servlen <= length p ->
     Ndb_split_string_address_port
       (s ++ NUL :: tail) host hostlen serv servlen =
     Ok ((-1)%Z, host, serv))
  /\
  (forall (arg host0 serv0 host' serv' : list ascii) (hostlen0 servlen0 : nat)
          (rc : Z),
     Ndb_split_string_address_port arg host0 hostlen0 serv0 servlen0 =
       Ok (rc, host', serv') ->
     rc <> 0%Z -> rc = (-1)%Z /\ host' = host0 /\ serv' = serv0)
  /\
  (forall (addr6 : sockaddr_in6)
          (getaddrinfo : list ascii -> addrinfo_hints -> Z * list addrinfo)
          (dst dst' : in6_addr) (address : list ascii) (rc : Z),
     Ndb_getInAddr6 addr6 getaddrinfo dst address = Ok (rc, dst') ->
     rc <> 0%Z -> rc = (-1)%Z /\ dst' = dst).
Proof.
  intros Hs Hroom; split; [|split].
  - intros h p Hx Hlong.
    exact (split_refuses_truncation Hs Hroom Hx Hlong).
  - intros arg host0 serv0 host' serv' hostlen0 servlen0 rc H Hrc.
    destruct (split_failure_keeps_buffers H) as [E|E]; [contradiction|exact E].
  - intros addr6 getaddrinfo dst dst' address rc H Hrc.
    destruct (getInAddr6_failure_keeps_address H) as [E|E];
      [contradiction|exact E].
Qed.

(** "node1.example.com:1186" into a host buffer of 8 bytes, and
    "[::1]:1186" into a service buffer of 4 bytes. *)
Lemma split_truncation_fails_and_failures_keep_outputs_witness :
  Ndb_split_string_address_port
    (c_lit "node1.example.com:1186") (buf 8) 8 (buf 6) 6 =
    Ok ((-1)%Z, buf 8, buf 6)
  /\
  Ndb_split_string_address_port (c_lit "[::1]:1186") (buf 8) 8 (buf 4) 4 =
    Ok ((-1)%Z, buf 8, buf 4).
Proof.
  split.
  - refine (proj1 (@split_truncation_fails_and_failures_keep_outputs
                     (lit "node1.example.com:1186") [] (buf 8) (buf 6) 8 6
                     _ _) (lit "node1.example.com") (lit "1186") eq_refl _).
    + cbv; intuition discriminate.
    + cbv; lia.
    + left; cbv; lia.
  - refine (proj1 (@split_truncation_fails_and_failures_keep_outputs
                     (lit "[::1]:1186") [] (buf 8) (buf 4) 8 4
                     _ _) (lit "::1") (lit "1186") eq_refl _).
    + cbv; intuition discriminate.
    + cbv; lia.
    + right; cbv; lia.
Defined.

(** ** Ndb_combine_address_port *)

Lemma read_str_app {s tail : list ascii} {p : nat} :
  no_nul s -> read_str (s ++ NUL :: tail) p = Ok s.
Proof.
  unfold no_nul; revert p; induction s as [|c s IH]; intros p Hs; simpl; auto.
  now rewrite (eqb_NUL_false Hs), IH by exact (no_nul_tail Hs).
Qed.

Lemma snprintf_whole {buf text : list ascii} {bufsize : nat} :
  length text < bufsize -> bufsize <= length buf ->
  snprintf buf bufsize text =
  Ok (text ++ NUL :: skipn (S (length text)) buf).
Proof.
  intros Hlt Hle; unfold snprintf.
  replace (bufsize =? 0) with false by (symmetry; apply Nat.eqb_neq; lia).
  rewrite firstn_all2 by lia.
  rewrite store_0 by (rewrite length_app; simpl; lia).
  rewrite length_app, <- app_assoc; simpl.
  now rewrite Nat.add_1_r.
Qed.

Lemma snprintf_total {buf text : list ascii} {bufsize : nat} :
  bufsize <= length buf ->
  exists out, snprintf buf bufsize text = Ok out /\ length out = length buf.
Proof.
  intros Hle; unfold snprintf.
  destruct (Nat.eqb_spec bufsize 0) as [->|Hne]; [now exists buf|].
  apply store_fits.
  rewrite length_app, length_firstn; simpl; lia.
Qed.

(** The three renderings, when the text and its terminator fit. *)
Lemma combine_renders
  {buf tail : list ascii} {bufsize : nat} {host : option (list ascii)}
  {port : Z} :
  match host with Some h => no_nul h | None => True end ->
  length (endpoint_text host port) < bufsize ->
  bufsize <= length buf ->
  Ndb_combine_address_port buf bufsize
    (option_map (fun h => h ++ NUL :: tail) host) port =
  Ok (endpoint_text host port ++
      NUL :: skipn (S (length (endpoint_text host port))) buf).
Proof.
  destruct host as [h|]; cbn [option_map endpoint_text
    Ndb_combine_address_port]; intros Hh Hlt Hle.
  - rewrite (read_str_app Hh).
    destruct (has ":" h) eqn:Hcolon.
    + apply has_In in Hcolon.
      destruct (first_occurrence Hcolon) as (h1 & h2 & Eh & Hh1).
      assert (Hh1n : no_nul h1)
        by (rewrite Eh in Hh; now apply no_nul_app in Hh).
      assert (E : h ++ NUL :: tail = [] ++ h1 ++ ":"%char ::
                                     h2 ++ NUL :: tail)
        by (rewrite Eh; now rewrite <- app_assoc).
      rewrite (strchr_at_found (k := 0) E eq_refl Hh1 Hh1n); cbn [bind].
      now apply snprintf_whole.
    + apply has_not_In in Hcolon.
      assert (E : h ++ NUL :: tail = [] ++ h ++ NUL :: tail) by reflexivity.
      rewrite (strchr_at_absent (k := 0) E eq_refl Hcolon Hh colon_not_NUL);
        cbn [bind].
      now apply snprintf_whole.
  - now apply snprintf_whole.
Qed.

(** Ndb_combine_address_port has no failure return: with a buffer of the
    stated size and a terminated host it always hands back the buffer. *)
Lemma combine_never_fails
  {buf tail : list ascii} {bufsize : nat} {host : option (list ascii)}
  {port : Z} :
  match host with Some h => no_nul h | None => True end ->
  bufsize <= length buf ->
  exists out,
    Ndb_combine_address_port buf bufsize
      (option_map (fun h => h ++ NUL :: tail) host) port = Ok out /\
    length out = length buf.
Proof.
  destruct host as [h|]; cbn [option_map Ndb_combine_address_port];
    intros Hh Hle.
  - rewrite (read_str_app Hh).
    destruct (has ":" h) eqn:Hcolon.
    + apply has_In in Hcolon.
      destruct (first_occurrence Hcolon) as (h1 & h2 & Eh & Hh1).
      assert (Hh1n : no_nul h1)
        by (rewrite Eh in Hh; now apply no_nul_app in Hh).
      assert (E : h ++ NUL :: tail = [] ++ h1 ++ ":"%char ::
                                     h2 ++ NUL :: tail)
        by (rewrite Eh; now rewrite <- app_assoc).
      rewrite (strchr_at_found (k := 0) E eq_refl Hh1 Hh1n); cbn [bind].
      now apply snprintf_total.
    + apply has_not_In in Hcolon.
      assert (E : h ++ NUL :: tail = [] ++ h ++ NUL :: tail) by reflexivity.
      rewrite (strchr_at_absent (k := 0) E eq_refl Hcolon Hh colon_not_NUL);
        cbn [bind].
      now apply snprintf_total.
  - now apply snprintf_total.
Qed.

(** Splitting and combining again gives back "host:1186" and
    "[::1]:1186"; "host" keeps its host. *)
Lemma split_combine_round_trip :
  (exists host serv out,
     Ndb_split_string_address_port (c_lit "host:1186") (buf 16) 16 (buf 8) 8
       = Ok (0%Z, host, serv) /\
     c_str serv = Some (print_d 1186) /\
     Ndb_combine_address_port (buf 32) 32 (Some host) 1186 = Ok out /\
     c_str out = Some (lit "host:1186"))
  /\
  (exists host serv out,
     Ndb_split_string_address_port (c_lit "[::1]:1186") (buf 16) 16 (buf 8) 8
       = Ok (0%Z, host, serv) /\
     c_str serv = Some (print_d 1186) /\
     Ndb_combine_address_port (buf 32) 32 (Some host) 1186 = Ok out /\
     c_str out = Some (lit "[::1]:1186"))
  /\
  (exists host serv,
     Ndb_split_string_address_port (c_lit "host") (buf 16) 16 (buf 8) 8
       = Ok (0%Z, host, serv) /\
     c_str host = Some (lit "host") /\
     c_str serv = Some []).
Proof.
  split; [|split].
  - do 3 eexists; repeat split; reflexivity.
  - do 3 eexists; repeat split; reflexivity.
  - do 2 eexists; repeat split; reflexivity.
Qed.

(** C8. The fourth string of the round trip, "[fe80::1]": as a literal
    the call runs off the end of the object, and in a buffer that held a
    longer string before it returns -1 and delivers no host. *)
Theorem split_bracket_host_not_preserved :
  Ndb_split_string_address_port (c_lit "[fe80::1]") (buf 16) 16 (buf 8) 8 =
    Fault (OobRead 10)
  /\
  c_str (c_lit "[fe80::1]" ++ c_lit "db8::1]:1186") = Some (lit "[fe80::1]")
  /\
  Ndb_split_string_address_port
    (c_lit "[fe80::1]" ++ c_lit "db8::1]:1186") (buf 16) 16 (buf 8) 8 =
    Ok ((-1)%Z, buf 16, buf 8).
Proof. repeat split; reflexivity. Qed.

(** ** Ndb_inet_ntop: the sentinel *)

Lemma sentinel_written {dst : list ascii} {n : nat} :
  0 < n -> n <= length dst ->
  (d <- strncpy dst (c_lit "null") 0 n ;; store d (n - 1) [NUL]) =
  Ok (null_sentinel n ++ skipn n dst).
Proof.
  intros Hpos Hle.
  destruct (le_lt_dec 5 n) as [Hbig|Hsmall].
  - assert (Hnull : no_nul (lit "null")) by (cbv; intuition discriminate).
    assert (E : c_lit "null" = [] ++ lit "null" ++ NUL :: []) by reflexivity.
    rewrite (strncpy_pad (dst := dst) (k := 0) (n := n) E eq_refl Hnull)
      by (simpl; lia); cbn [bind].
    rewrite store_last_padded by (simpl; lia).
    unfold null_sentinel.
    rewrite firstn_all2 by (simpl; lia).
    rewrite Nat.min_r by lia.
    now rewrite <- app_assoc.
  - destruct n as [|[|[|[|[|n]]]]]; try lia;
      repeat (destruct dst as [|? dst]; [simpl in Hle; lia|]);
      reflexivity.
Qed.

Lemma c_str_null_sentinel {r : list ascii} {n : nat} :
  0 < n ->
  c_str (null_sentinel n ++ r) = Some (firstn (n - 1) (lit "null")).
Proof.
  intros Hpos.
  destruct n as [|[|[|[|[|n]]]]]; try lia; try reflexivity.
  unfold null_sentinel.
  rewrite firstn_all2 by (simpl; lia).
  rewrite Nat.min_r by lia.
  replace (S (S (S (S (S n)))) - 4) with (S n) by lia.
  reflexivity.
Qed.

(** A family that is neither AF_INET nor AF_INET6: the sentinel. *)
Lemma inet_ntop_other_family
  {getnameinfo : sockaddr -> list ascii -> nat -> Z -> Z * list ascii}
  {af : Z} {src : list byte} {dst : list ascii} {dst_size : nat} :
  af <> AF_INET -> af <> AF_INET6 ->
  0 < dst_size -> dst_size <= length dst ->
  Ndb_inet_ntop getnameinfo af src dst dst_size =
  Ok (null_sentinel dst_size ++ skipn dst_size dst).
Proof.
  intros H4 H6 Hpos Hle; unfold Ndb_inet_ntop.
  replace (dst_size =? 0) with false by (symmetry; apply Nat.eqb_neq; lia).
  replace (af =? AF_INET)%Z with false by (symmetry; now apply Z.eqb_neq).
  replace (af =? AF_INET6)%Z with false by (symmetry; now apply Z.eqb_neq).
  cbn [bind]; now apply sentinel_written.
Qed.

(** AF_INET: what getnameinfo wrote when it succeeds, the sentinel when
    it fails. *)
Lemma inet_ntop_inet
  {getnameinfo : sockaddr -> list ascii -> nat -> Z -> Z * list ascii}
  {src : list byte} {dst dst' : list ascii} {dst_size : nat} {ret : Z} :
  0 < dst_size -> 4 <= length src ->
  getnameinfo
    (SockaddrIn {| sin_family := AF_INET;
                   sin_port := 0;
                   sin_addr := {| s_addr := firstn 4 src |} |})
    dst dst_size NI_NUMERICHOST = (ret, dst') ->
  dst_size <= length dst' ->
  Ndb_inet_ntop getnameinfo AF_INET src dst dst_size =
  if (ret =? 0)%Z then Ok dst'
  else Ok (null_sentinel dst_size ++ skipn dst_size dst').
Proof.
  intros Hpos Hsrc Hrender Hle; unfold Ndb_inet_ntop.
  replace (dst_size =? 0) with false by (symmetry; apply Nat.eqb_neq; lia).
  cbn [Z.eqb Pos.eqb AF_INET].
  rewrite (memcpy_fresh Hsrc); cbn [bind].
  rewrite Hrender.
  destruct (ret =? 0)%Z; cbn [negb bind]; [reflexivity|].
  now apply sentinel_written.
Qed.

(** C7. A failing rendering in the IPv6 case: the address ::ffff:127.0.0.1
    does not fit a buffer of 8 cells, the renderer reports EAI_OVERFLOW
    and leaves the buffer as it was, holding the 8 characters "::ffff:1"
    of an earlier truncated copy.  The prefix is compared and stripped
    before the return code is looked at: strlen runs off the end of the
    buffer and no sentinel is written.  When the object is longer than
    the capacity handed in, the move writes behind that capacity. *)
Theorem inet_ntop_failure_before_sentinel :
  numeric_host (numeric_sockaddr_in6 (v4mapped [x7f; x00; x00; x01]))
    (lit "::ffff:1") 8 NI_NUMERICHOST = (EAI_OVERFLOW, lit "::ffff:1")
  /\
  Ndb_inet_ntop numeric_host AF_INET6 (v4mapped [x7f; x00; x00; x01])
    (lit "::ffff:1") 8 = Fault (OobRead 8)
  /\
  Ndb_inet_ntop numeric_host AF_INET6 (v4mapped [x7f; x00; x00; x01])
    (lit "::ffff:10.0.0.1" ++ NUL :: lit "rest") 8 =
  Ok (null_sentinel 8 ++ NUL :: lit ".0.0.1" ++ NUL :: lit "rest").
Proof. repeat split; reflexivity. Qed.

(** ** Ndb_check_socket_hup *)

(** The poll strategy: 1 exactly when POLLHUP or POLLERR is set in what
    poll left in revents; the return code of poll is not looked at. *)
Lemma check_socket_hup_poll_flags
  {poll : pollfd -> Z -> Z * pollfd} {sock : ndb_socket_t} :
  let pfd := {| pfd_fd := fd sock;
                events := Z.lor (Z.lor (Z.lor POLLHUP POLLIN) POLLOUT)
                                POLLNVAL;
                revents := 0 |} in
  Ndb_check_socket_hup_poll poll sock =
  if (Z.land (revents (snd (poll pfd 0%Z))) (Z.lor POLLHUP POLLERR) =? 0)%Z
  then 0%Z else 1%Z.
Proof.
  intros pfd; unfold Ndb_check_socket_hup_poll; fold pfd.
  destruct (poll pfd 0%Z) as [r pfd']; cbn [snd].
  destruct (Z.land (revents pfd') (Z.lor POLLHUP POLLERR) =? 0)%Z;
    reflexivity.
Qed.

(** The select strategy, where FD_SET and FD_ISSET are defined: a failing
    select, a flagged error set, a failing getsockopt and a pending
    error each give 1; 0 is returned only when all four are clear. *)
Lemma check_socket_hup_select_conservative
  {select : Z -> fd_set -> fd_set -> fd_set -> Z ->
            Z * (fd_set * fd_set * fd_set)}
  {ndb_getsockopt : ndb_socket_t -> Z -> Z -> Z -> Z * Z}
  {WIN32 : bool} {sock : ndb_socket_t} :
  WIN32 = true \/ in_fd_set_range (fd sock) = true ->
  let set := [fd sock] in
  let sel := select (ndb_socket_nfds WIN32 sock 0 + 1)%Z set set set 0%Z in
  let opt := ndb_getsockopt sock SOL_SOCKET SO_ERROR 0%Z in
  Ndb_check_socket_hup_select select ndb_getsockopt WIN32 sock =
  Ok (if (fst sel <? 0)%Z
         || existsb (Z.eqb (fd sock)) (snd (snd sel))
         || negb (fst opt =? 0)%Z
         || negb (snd opt =? 0)%Z
      then 1%Z else 0%Z).
Proof.
  intros Hdef set sel opt.
  assert (Hset : my_FD_SET WIN32 sock FD_ZERO = Ok set).
  { unfold my_FD_SET, FD_SET, ndb_socket_get_native, FD_ZERO.
    destruct Hdef as [->|Hin]; [reflexivity|].
    rewrite Hin; destruct WIN32; reflexivity. }
  assert (Hisset : forall e, my_FD_ISSET WIN32 sock e =
                             Ok (existsb (Z.eqb (fd sock)) e)).
  { intros e; unfold my_FD_ISSET, FD_ISSET, ndb_socket_get_native.
    destruct Hdef as [->|Hin]; [reflexivity|].
    rewrite Hin; destruct WIN32; reflexivity. }
  unfold Ndb_check_socket_hup_select.
  rewrite Hset; cbn [bind]; fold sel; fold opt.
  destruct sel as [rc [[r w] e]]; cbn [fst snd].
  destruct (rc <? 0)%Z; cbn [orb]; [reflexivity|].
  rewrite Hisset; cbn [bind].
  destruct (existsb (Z.eqb (fd sock)) e); cbn [orb]; [reflexivity|].
  destruct opt as [rc' s_err]; cbn [fst snd].
  destruct (rc' =? 0)%Z; cbn [negb orb]; [|reflexivity].
  destruct (s_err =? 0)%Z; reflexivity.
Qed.

(** C9. poll fails (-1) and leaves revents at the 0 it was given: the
    probe under HAVE_POLL answers 0, not hung up. *)
Theorem check_socket_hup_poll_failure_ignored :
  fst (poll_fails {| pfd_fd := 3; events := 53; revents := 0 |} 0%Z) =
    (-1)%Z
  /\
  forall WIN32 : bool,
    Ndb_check_socket_hup poll_fails select_idle getsockopt_idle true WIN32
      {| fd := 3 |} = Ok 0%Z.
Proof. split; [reflexivity | intros WIN32; reflexivity]. Qed.

(** * Further properties *)

(** ** The resolver from end to end *)

Lemma first_suffix_spec {P : addrinfo -> bool} {l : list addrinfo} :
  (first_suffix P l = [] /\ forall x, In x l -> P x = false) \/
  (exists l1 ai l2,
     l = l1 ++ ai :: l2 /\ (forall x, In x l1 -> P x = false) /\
     P ai = true /\ first_suffix P l = ai :: l2).
Proof.
  induction l as [|a l IH]; [left; split; [reflexivity|intros x []]|].
  cbn [first_suffix]; destruct (P a) eqn:Ea.
  - right; exists [], a, l; repeat split; auto; intros x [].
  - destruct IH as [[E Hall]|(l1 & ai & l2 & -> & Hl1 & Hai & E)].
    + left; split; auto; intros x [<-|Hx]; auto.
    + right; exists (a :: l1), ai, l2; repeat split; auto.
      intros x [<-|Hx]; auto.
Qed.

Lemma sized_is_wf {ai : addrinfo} : sized_addrinfo ai -> wf_addrinfo ai.
Proof.
  intros [H4 H6]; split; intros Hf.
  - destruct (H4 Hf) as (sa & E & _); now exists sa.
  - destruct (H6 Hf) as (sa & E & _); now exists sa.
Qed.

Lemma is_inet_false {ai : addrinfo} :
  is_inet ai = false -> ai_family ai <> AF_INET.
Proof. unfold is_inet; intros H; now apply Z.eqb_neq. Qed.

(** get_preferred_address computes the rule of its comment. *)
Lemma get_preferred_address_is_preferred {l : list addrinfo} :
  Forall wf_addrinfo l -> get_preferred_address l = Ok (preferred l).
Proof.
  intros Hwf; unfold get_preferred_address, preferred.
  destruct (@first_suffix_spec is_inet l)
    as [[E4 Hno4]|(l1 & ai & l2 & -> & Hl1 & Hai & E4)]; rewrite E4.
  - assert (Hno : forall x, In x l -> ai_family x <> AF_INET)
      by (intros x Hx; apply is_inet_false; auto).
    destruct (@first_suffix_spec zero_scope_ipv6 l)
      as [[E6 Hno6]|(l1 & ai & l2 & -> & Hl1 & Hai & E6)]; rewrite E6.
    + rewrite <- (app_nil_r l), scan_passes_over; auto.
    + apply Forall_app in Hwf; destruct Hwf as [Hwf1 _].
      rewrite scan_passes_over; auto.
      * rewrite scan_prefers_zero_scope; auto.
        -- apply Hno, in_or_app; right; now left.
        -- intros x Hx; apply Hno, in_or_app; right; now right.
      * intros x Hx; split; auto.
        apply Hno, in_or_app; now left.
  - apply Forall_app in Hwf; destruct Hwf as [Hwf1 _].
    rewrite (scan_stops_at_ipv4 (l2 := l2) (pref := []) Hwf1); auto.
    + intros x Hx; apply is_inet_false; auto.
    + now apply Z.eqb_eq.
Qed.

Lemma get_in6_addr_inet6
  {addr6 : sockaddr_in6} {dst : in6_addr} {ai : addrinfo}
  {rest : list addrinfo} {sa : sockaddr_in6} :
  length (s6_addr dst) = 16 ->
  ai_family ai = AF_INET6 ->
  ai_addr ai = SockaddrIn6 sa ->
  length (s6_addr (sin6_addr sa)) = 16 ->
  get_in6_addr addr6 dst (ai :: rest) = Ok (0%Z, sin6_addr sa).
Proof.
  intros Hdst Hfam Haddr Hlen; unfold get_in6_addr.
  rewrite Hfam, Haddr; cbn [Z.eqb Pos.eqb AF_INET AF_INET6 as_sockaddr_in6
    bind].
  rewrite memcpy_whole; auto.
  destruct (sin6_addr sa); reflexivity.
Qed.

Lemma preferred_head_kind {l : list addrinfo} {ai : addrinfo}
  {rest : list addrinfo} :
  preferred l = ai :: rest ->
  In ai l /\ (ai_family ai = AF_INET \/ zero_scope_ipv6 ai = true).
Proof.
  unfold preferred.
  destruct (@first_suffix_spec is_inet l)
    as [[E4 _]|(l1 & a & l2 & -> & _ & Ha & E4)]; rewrite E4.
  - destruct (@first_suffix_spec zero_scope_ipv6 l)
      as [[E6 _]|(l1 & a & l2 & -> & _ & Ha & E6)]; rewrite E6;
      [discriminate|].
    intros [= <- <-]; split; [apply in_or_app; right; now left|now right].
  - intros [= <- <-]; split; [apply in_or_app; right; now left|].
    left; now apply Z.eqb_eq.
Qed.

(** X1. Ndb_getInAddr6, given the answer of the resolver: a failing
    resolver gives -1 and leaves the destination alone; a list gives the
    address of the node the rule prefers (an IPv4 address mapped, an IPv6
    address as it is) with 0, or -1 and an untouched destination when
    the rule prefers no node. *)
Theorem getInAddr6_resolves
  {addr6 : sockaddr_in6}
  {getaddrinfo : list ascii -> addrinfo_hints -> Z * list addrinfo}
  {dst : in6_addr} {address : list ascii} {rc : Z} {l : list addrinfo} :
  length (s6_addr (sin6_addr addr6)) = 16 ->
  length (s6_addr dst) = 16 ->
  Forall sized_addrinfo l ->
  getaddrinfo address resolver_hints = (rc, l) ->
  Ndb_getInAddr6 addr6 getaddrinfo dst address =
  Ok (if (rc =? 0)%Z
      then match preferred l with
           | [] => ((-1)%Z, dst)
           | ai :: _ => (0%Z, internal_address ai)
           end
      else ((-1)%Z, dst)).
Proof.
  intros Hstack Hdst Hsized Hres.
  unfold Ndb_getInAddr6; rewrite Hres.
  destruct (rc =? 0)%Z; cbn [negb]; [|reflexivity].
  rewrite get_preferred_address_is_preferred
    by (eapply Forall_impl; [|exact Hsized]; intros a; apply sized_is_wf).
  cbn [bind].
  destruct (preferred l) as [|ai rest] eqn:Ep; [reflexivity|].
  destruct (preferred_head_kind Ep) as [Hin Hkind].
  rewrite Forall_forall in Hsized.
  destruct (Hsized ai Hin) as [H4 H6].
  unfold internal_address.
  destruct Hkind as [Hfam|Hz].
  - destruct (H4 Hfam) as (sa & Haddr & Hlen).
    rewrite (get_in6_addr_inet Hstack Hdst Hfam Haddr Hlen), Haddr.
    reflexivity.
  - unfold zero_scope_ipv6 in Hz; apply andb_prop in Hz.
    destruct Hz as [Hfam _]; apply Z.eqb_eq in Hfam.
    destruct (H6 Hfam) as (sa & Haddr & Hlen).
    rewrite (get_in6_addr_inet6 Hdst Hfam Haddr Hlen), Haddr.
    reflexivity.
Qed.

Ltac sized_nodes :=
  repeat (constructor;
          [split; intros Hfam;
           first [discriminate Hfam
                 | eexists; split; reflexivity]|]).

Lemma getInAddr6_resolves_witness :
  Ndb_getInAddr6 zero_sockaddr_in6 (getaddrinfo_const mixed_candidates)
    {| s6_addr := repeat xaa 16 |} (c_lit "host") =
  Ok (0%Z, {| s6_addr := v4mapped [x7f; x00; x00; x01] |})
  /\
  Ndb_getInAddr6 zero_sockaddr_in6 (getaddrinfo_const inet6_candidates)
    {| s6_addr := repeat xaa 16 |} (c_lit "host") =
  Ok (0%Z, {| s6_addr := repeat x00 15 ++ [x01] |})
  /\
  Ndb_getInAddr6 zero_sockaddr_in6 getaddrinfo_loopback
    {| s6_addr := repeat xaa 16 |} (c_lit "unknown_?host") =
  Ok ((-1)%Z, {| s6_addr := repeat xaa 16 |}).
Proof.
  split; [|split].
  - refine (@getInAddr6_resolves zero_sockaddr_in6
              (getaddrinfo_const mixed_candidates)
              {| s6_addr := repeat xaa 16 |} (c_lit "host") 0%Z
              mixed_candidates eq_refl eq_refl _ eq_refl).
    unfold mixed_candidates; sized_nodes; constructor.
  - refine (@getInAddr6_resolves zero_sockaddr_in6
              (getaddrinfo_const inet6_candidates)
              {| s6_addr := repeat xaa 16 |} (c_lit "host") 0%Z
              inet6_candidates eq_refl eq_refl _ eq_refl).
    unfold inet6_candidates; sized_nodes; constructor.
  - refine (@getInAddr6_resolves zero_sockaddr_in6 getaddrinfo_loopback
              {| s6_addr := repeat xaa 16 |} (c_lit "unknown_?host") EAI_NONAME [] eq_refl eq_refl _
              eq_refl).
    constructor.
Defined.

(** ** Ndb_split_string_address_port: what holds for every input *)

Lemma store_ok_frame {A : Type} {m m' cells : list A} {p : nat} :
  store m p cells = Ok m' ->
  p + length cells <= length m /\
  length m' = length m /\
  forall q, p + length cells <= q -> skipn q m' = skipn q m.
Proof.
  unfold store; destruct (Nat.leb_spec (p + length cells) (length m))
    as [Hle|Hgt]; [|discriminate].
  intros [= <-]; split; [exact Hle|split].
  - rewrite !length_app, length_firstn, length_skipn; lia.
  - intros q Hq.
    rewrite app_assoc, skipn_app.
    rewrite length_app, length_firstn, Nat.min_l by lia.
    rewrite (skipn_all2 (n := q))
      by (rewrite length_app, length_firstn; lia).
    rewrite skipn_skipn; cbn [app]; f_equal; lia.
Qed.

Lemma strncpy_cells_length {l cells : list ascii} {p n : nat} :
  strncpy_cells l p n = Ok cells -> length cells = n.
Proof.
  revert l p cells; induction n as [|n IH]; intros l p cells; cbn.
  - now intros [= <-].
  - destruct l as [|c l]; [discriminate|].
    destruct (Ascii.eqb c NUL).
    + intros [= <-]; cbn; now rewrite repeat_length.
    + destruct (strncpy_cells l (S p) n) as [cs|f] eqn:E; cbn;
        [|discriminate].
      intros [= <-]; cbn; f_equal; exact (IH _ _ _ E).
Qed.

Lemma strncpy_ok_frame {dst src d : list ascii} {p n : nat} :
  strncpy dst src p n = Ok d ->
  n <= length dst /\
  length d = length dst /\
  forall q, n <= q -> skipn q d = skipn q dst.
Proof.
  unfold strncpy.
  destruct (strncpy_cells (skipn p src) p n) as [cells|f] eqn:E; cbn;
    [|discriminate].
  intros Hst; apply store_ok_frame in Hst.
  rewrite (strncpy_cells_length E) in Hst; exact Hst.
Qed.

Lemma load_fault {m : list ascii} {p : nat} {f : fault} :
  load m p = Fault f -> read_fault f.
Proof.
  unfold load; destruct (nth_error m p); [discriminate|].
  intros [= <-]; now exists p.
Qed.

Lemma strlen_from_fault {l : list ascii} {p : nat} {f : fault} :
  strlen_from l p = Fault f -> read_fault f.
Proof.
  revert p; induction l as [|c l IH]; intros p; cbn.
  - intros [= <-]; now exists p.
  - destruct (Ascii.eqb c NUL); [discriminate|].
    destruct (strlen_from l (S p)) eqn:E; cbn; [discriminate|].
    intros [= <-]; exact (IH _ E).
Qed.

Lemma strchr_from_fault {l : list ascii} {c : ascii} {p : nat} {f : fault} :
  strchr_from l c p = Fault f -> read_fault f.
Proof.
  revert p; induction l as [|x l IH]; intros p; cbn.
  - intros [= <-]; now exists p.
  - destruct (Ascii.eqb x c); [discriminate|].
    destruct (Ascii.eqb x NUL); [discriminate|apply IH].
Qed.

Lemma strncpy_cells_fault {l : list ascii} {p n : nat} {f : fault} :
  strncpy_cells l p n = Fault f -> read_fault f.
Proof.
  revert l p; induction n as [|n IH]; intros l p; cbn; [discriminate|].
  destruct l as [|c l]; [intros [= <-]; now exists p|].
  destruct (Ascii.eqb c NUL); [discriminate|].
  destruct (strncpy_cells l (S p) n) eqn:E; cbn; [discriminate|].
  intros [= <-]; exact (IH _ _ E).
Qed.

Lemma store_fault {A : Type} {m cells : list A} {p : nat} {f : fault} :
  store m p cells = Fault f -> length m < p + length cells.
Proof.
  unfold store; destruct (Nat.leb_spec (p + length cells) (length m));
    [discriminate|auto].
Qed.

Lemma strncpy_fault {dst src : list ascii} {p n : nat} {f : fault} :
  strncpy dst src p n = Fault f -> read_fault f \/ length dst < n.
Proof.
  unfold strncpy.
  destruct (strncpy_cells (skipn p src) p n) as [cells|f'] eqn:E; cbn.
  - intros Hst; right; apply store_fault in Hst.
    now rewrite (strncpy_cells_length E) in Hst.
  - intros [= <-]; left; exact (strncpy_cells_fault E).
Qed.

Lemma strlen_fault {m : list ascii} {p : nat} {f : fault} :
  strlen m p = Fault f -> read_fault f.
Proof. apply strlen_from_fault. Qed.

Lemma strchr_fault {m : list ascii} {c : ascii} {p : nat} {f : fault} :
  strchr m p c = Fault f -> read_fault f.
Proof. apply strchr_from_fault. Qed.

Ltac crunch :=
  repeat match goal with
         | H : context [match ?x with _ => _ end] |- _ =>
             destruct x eqn:?; try discriminate H
         end.

Ltac frames :=
  repeat match goal with
         | E : store _ _ _ = Ok _ |- _ =>
             apply store_ok_frame in E; cbn [length] in E;
             destruct E as (? & ? & ?)
         | E : strncpy _ _ _ _ = Ok _ |- _ =>
             apply strncpy_ok_frame in E; destruct E as (? & ? & ?)
         | E : (_ <=? _) = false |- _ => apply Nat.leb_gt in E
         | E : Ok _ = Ok _ |- _ => injection E as E; try subst
         | E : Fault _ = Fault _ |- _ => injection E as E; try subst
         end.

Ltac chase k :=
  repeat match goal with
         | H : forall q, _ <= q -> skipn q ?a = skipn q _
           |- skipn k ?a = _ => rewrite (H k) by lia
         end;
  reflexivity.

Ltac bounds :=
  repeat match goal with
         | E : Ok _ = Ok _ |- _ => injection E as E
         | E : (_ <=? _) = false |- _ => apply Nat.leb_gt in E
         end.

Lemma store_ok_cell {A : Type} {m m' : list A} {c : A} {p : nat} :
  store m p [c] = Ok m' -> nth_error m' p = Some c.
Proof.
  unfold store; destruct (Nat.leb_spec (p + length [c]) (length m))
    as [Hle|Hgt]; [|discriminate].
  cbn [length] in Hle.
  intros [= <-].
  rewrite nth_error_app2 by (rewrite length_firstn; lia).
  rewrite length_firstn, Nat.min_l, Nat.sub_diag by lia.
  reflexivity.
Qed.

Lemma strncpy_cells_terminated {l cells : list ascii} {p p' a n : nat} :
  strlen_from l p = Ok a -> a < n ->
  strncpy_cells l p' n = Ok cells ->
  nth_error cells a = Some NUL.
Proof.
  revert p p' a n cells; induction l as [|c l IH]; intros p p' a n cells;
    cbn [strlen_from]; [discriminate|].
  destruct (Ascii.eqb c NUL) eqn:Ec.
  - intros [= <-] Hn; destruct n as [|n]; [lia|].
    cbn [strncpy_cells]; rewrite Ec; now intros [= <-].
  - destruct (strlen_from l (S p)) as [a'|] eqn:El; cbn [bind];
      [|discriminate].
    intros [= <-] Hn; destruct n as [|n]; [lia|].
    cbn [strncpy_cells]; rewrite Ec.
    destruct (strncpy_cells l (S p') n) as [cs|] eqn:Ecs; cbn [bind];
      [|discriminate].
    intros [= <-]; cbn [nth_error].
    eapply IH; [exact El | | exact Ecs]; lia.
Qed.

(** A source string shorter than the count: strncpy leaves its
    terminator in the destination. *)
Lemma strncpy_terminated {dst src d : list ascii} {k a n : nat} :
  strlen src k = Ok a -> a < n ->
  strncpy dst src k n = Ok d ->
  nth_error d a = Some NUL.
Proof.
  unfold strlen, strncpy; intros Hlen Han.
  destruct (strncpy_cells (skipn k src) k n) as [cells|] eqn:E; cbn [bind];
    [|discriminate].
  unfold store; destruct (0 + length cells <=? length dst); [|discriminate].
  intros [= <-]; cbn [firstn app].
  rewrite nth_error_app1 by (rewrite (strncpy_cells_length E); lia).
  exact (strncpy_cells_terminated Hlen Han E).
Qed.

(** X2. Whatever the memory at [arg] holds: a call that returns gives 0
    or -1, and with -1 both output buffers are exactly as they were. *)
Theorem split_failure_is_clean
  {arg host serv host' serv' : list ascii} {hostlen servlen : nat} {rc : Z} :
  Ndb_split_string_address_port arg host hostlen serv servlen =
    Ok (rc, host', serv') ->
  rc = 0%Z \/ (rc = (-1)%Z /\ host' = host /\ serv' = serv).
Proof. exact split_failure_keeps_buffers. Qed.

Lemma split_failure_is_clean_witness :
  (-1)%Z = 0%Z \/
  ((-1)%Z = (-1)%Z /\ buf 16 = buf 16 /\ buf 8 = buf 8).
Proof.
  exact (@split_failure_is_clean (c_lit "[badbracket") (buf 16) (buf 8)
           (buf 16) (buf 8) 16 8 (-1)%Z eq_refl).
Defined.

(** X3. With buffers as large as the sizes handed in and a service size
    of at least 1, a call that returns has written nothing at or behind
    offset hostlen of the host buffer or servlen of the service buffer,
    whatever the input. *)
Theorem split_writes_stay_in_bounds
  {arg host serv host' serv' : list ascii} {hostlen servlen : nat} {rc : Z} :
  hostlen <= length host -> servlen <= length serv -> 0 < servlen ->
  Ndb_split_string_address_port arg host hostlen serv servlen =
    Ok (rc, host', serv') ->
  length host' = length host /\ length serv' = length serv /\
  skipn hostlen host' = skipn hostlen host /\
  skipn servlen serv' = skipn servlen serv.
Proof.
  unfold Ndb_split_string_address_port, bind; intros Hh Hs Hpos H.
  crunch; frames.
  all: try (repeat split; reflexivity).
  all: repeat split; try lia.
  all: try (chase hostlen).
  all: try (chase servlen).
Qed.

Lemma split_writes_stay_in_bounds_witness :
  length (lit "::1" ++ NUL :: buf 16) = length (buf 20) /\
  length (lit "1186" ++ repeat NUL 4 ++ buf 4) = length (buf 12) /\
  skipn 16 (lit "::1" ++ NUL :: buf 16) = skipn 16 (buf 20) /\
  skipn 8 (lit "1186" ++ repeat NUL 4 ++ buf 4) = skipn 8 (buf 12).
Proof.
  refine (@split_writes_stay_in_bounds (c_lit "[::1]:1186") (buf 20) (buf 12)
            _ _ 16 8 0%Z _ _ _ eq_refl); cbv; lia.
Defined.

(** X4. Under the same conditions a call that returns 0 leaves a NUL
    before offset hostlen in the host buffer and before offset servlen
    in the service buffer, whatever the input: both outputs are strings
    that end inside the sizes handed in. *)
Theorem split_outputs_are_terminated
  {arg host serv host' serv' : list ascii} {hostlen servlen : nat} :
  hostlen <= length host -> servlen <= length serv -> 0 < servlen ->
  Ndb_split_string_address_port arg host hostlen serv servlen =
    Ok (0%Z, host', serv') ->
  (exists i, i < hostlen /\ nth_error host' i = Some NUL) /\
  (exists j, j < servlen /\ nth_error serv' j = Some NUL).
Proof.
  unfold Ndb_split_string_address_port, bind; intros Hh Hs Hpos H.
  crunch; try discriminate H.
  all: injection H as <- <-.
  all: bounds.
  all: split.
  all: try (match goal with
            | E : store _ ?p [NUL] = Ok ?m
              |- exists i, _ /\ nth_error ?m i = _ =>
                exists p; split; [lia | exact (store_ok_cell E)]
            end).
  all: try (match goal with
            | L : strlen ?src ?k = Ok ?a, E : strncpy _ ?src ?k ?n = Ok ?m
              |- exists i, _ /\ nth_error ?m i = _ =>
                exists a; split;
                [lia | eapply strncpy_terminated; [exact L | | exact E]; lia]
            end).
Qed.

Lemma split_outputs_are_terminated_witness :
  (exists i, i < 16 /\
             nth_error (lit "myhost" ++ repeat NUL 10 ++ buf 4) i = Some NUL)
  /\
  (exists j, j < 8 /\ nth_error (NUL :: buf 11) j = Some NUL).
Proof.
  refine (@split_outputs_are_terminated (c_lit "myhost") (buf 20) (buf 12)
            _ _ 16 8 _ _ _ eq_refl); cbv; lia.
Defined.

(** X5. Under the same conditions the only fault a call can run into is
    a load outside the memory of the input: no store ever leaves the two
    output buffers. *)
Theorem split_never_overruns_outputs
  {arg host serv : list ascii} {hostlen servlen : nat} {f : fault} :
  hostlen <= length host -> servlen <= length serv -> 0 < servlen ->
  Ndb_split_string_address_port arg host hostlen serv servlen = Fault f ->
  read_fault f.
Proof.
  unfold Ndb_split_string_address_port, bind; intros Hh Hs Hpos H.
  crunch; try discriminate H.
  all: injection H as <-.
  all: frames.
  all: repeat match goal with
         | E : load _ _ = Fault _ |- _ => exact (load_fault E)
         | E : strchr _ _ _ = Fault _ |- _ => exact (strchr_fault E)
         | E : strlen _ _ = Fault _ |- _ => exact (strlen_fault E)
         | E : strncpy _ _ _ _ = Fault _ |- _ =>
             destruct (strncpy_fault E); [assumption|exfalso; lia]
         | E : store _ _ _ = Fault _ |- _ =>
             apply store_fault in E; cbn [length] in E; exfalso; lia
         end.
Qed.

Lemma split_never_overruns_outputs_witness : read_fault (OobRead 12).
Proof.
  refine (@split_never_overruns_outputs (lit "unterminated") (buf 16) (buf 8)
            16 8 _ _ _ _ eq_refl); cbv; lia.
Defined.

(** ** Ndb_split_string_address_port: rule by rule *)

Ltac literal := cbv; intuition discriminate.

(** X6. "[host]:service": the call returns 0 exactly when the host is
    shorter than hostlen, the service shorter than servlen and the host
    holds a colon; the host buffer then starts with the host and a NUL,
    the service buffer with the service padded with NUL up to servlen,
    and the cells behind are kept.  In every other case it returns -1
    and writes nothing.  The memory behind the input plays no part. *)
Theorem split_bracket_with_port
  {h p tail host serv : list ascii} {hostlen servlen : nat} :
  no_nul h -> no_nul p -> ~ In "]"%char h ->
  hostlen <= length host -> servlen <= length serv ->
  Ndb_split_string_address_port
    (("["%char :: h ++ "]"%char :: ":"%char :: p) ++ NUL :: tail)
    host hostlen serv servlen =
  if (length h <? hostlen) && (length p <? servlen) && has ":" h
  then Ok (0%Z,
           h ++ NUL :: skipn (S (length h)) host,
           p ++ repeat NUL (servlen - length p) ++ skipn servlen serv)
  else Ok ((-1)%Z, host, serv).
Proof. exact split_bracket_port. Qed.

Lemma split_bracket_with_port_witness :
  Ndb_split_string_address_port
    (("["%char :: lit "fe80::1" ++ "]"%char :: ":"%char :: lit "1186") ++
     NUL :: lit "stale")
    (buf 16) 16 (buf 8) 8 =
  Ok (0%Z, lit "fe80::1" ++ NUL :: buf 8, lit "1186" ++ repeat NUL 4)
  /\
  Ndb_split_string_address_port
    (("["%char :: lit "host" ++ "]"%char :: ":"%char :: lit "1186") ++
     NUL :: [])
    (buf 16) 16 (buf 8) 8 =
  Ok ((-1)%Z, buf 16, buf 8).
Proof.
  split.
  - refine (@split_bracket_with_port (lit "fe80::1") (lit "1186")
              (lit "stale") (buf 16) (buf 8) 16 8 _ _ _ _ _);
      first [literal | cbv; lia].
  - refine (@split_bracket_with_port (lit "host") (lit "1186")
              [] (buf 16) (buf 8) 16 8 _ _ _ _ _);
      first [literal | cbv; lia].
Defined.

(** X7. An input that starts with '[' and has no ']', or has a
    character other than ':' behind the first ']', gives -1 and writes
    nothing, whatever the buffers and sizes. *)
Theorem split_bracket_malformed
  {t tail host serv : list ascii} {hostlen servlen : nat} :
  no_nul t ->
  (~ In "]"%char t \/
   exists h c a, t = h ++ "]"%char :: c :: a /\ ~ In "]"%char h /\
                 c <> ":"%char) ->
  Ndb_split_string_address_port
    (("["%char :: t) ++ NUL :: tail) host hostlen serv servlen =
  Ok ((-1)%Z, host, serv).
Proof.
  intros Ht [Hnone | (h & c & a & -> & Hh & Hc)].
  - exact (split_bracket_unclosed Ht Hnone).
  - apply no_nul_app in Ht; destruct Ht as [Hhn Ha].
    apply no_nul_cons in Ha; destruct Ha as [_ Ha].
    apply no_nul_cons in Ha; destruct Ha as [Hcn _].
    exact (split_bracket_junk Hhn Hh Hc Hcn).
Qed.

Lemma split_bracket_malformed_witness :
  Ndb_split_string_address_port
    (("["%char :: lit "badbracket") ++ NUL :: []) (buf 16) 16 (buf 8) 8 =
  Ok ((-1)%Z, buf 16, buf 8)
  /\
  Ndb_split_string_address_port
    (("["%char :: lit "::1]1186") ++ NUL :: []) (buf 16) 16 (buf 8) 8 =
  Ok ((-1)%Z, buf 16, buf 8).
Proof.
  split.
  - refine (@split_bracket_malformed (lit "badbracket") [] (buf 16) (buf 8)
              16 8 _ (or_introl _)); literal.
  - refine (@split_bracket_malformed (lit "::1]1186") [] (buf 16) (buf 8)
              16 8 _ (or_intror _)); [literal|].
    exists (lit "::1"), "1"%char, (lit "186").
    split; [reflexivity|split; literal].
Defined.

(** X8. An input without a leading '[': with exactly one colon, a host
    of hostlen characters or more or a service of servlen characters or
    more gives -1; with another number of colons, an input of hostlen
    characters or more gives -1.  Nothing is written. *)
Theorem split_plain_truncation_fails
  {s tail host serv : list ascii} {hostlen servlen : nat} :
  no_nul s ->
  (forall t, s <> "["%char :: t) ->
  (colons s = 1 /\ (hostlen <= length (text_before ":" s) \/
                    servlen <= length (text_after ":" s))) \/
  (colons s <> 1 /\ hostlen <= length s) ->
  Ndb_split_string_address_port (s ++ NUL :: tail) host hostlen serv servlen =
  Ok ((-1)%Z, host, serv).
Proof.
  intros Hs Hb [[H1 Hlong] | [H1 Hlong]].
  - destruct (one_colon H1) as (h & p & -> & Hch & Hcp).
    rewrite (text_before_app Hch), (text_after_app Hch) in Hlong.
    apply no_nul_app in Hs; destruct Hs as [Hh Hp].
    apply no_nul_cons in Hp; destruct Hp as [_ Hp].
    exact (split_single_colon_truncated Hh Hp Hch Hcp Hb Hlong).
  - exact (split_whole_truncated Hs Hb H1 Hlong).
Qed.

Lemma split_plain_truncation_fails_witness :
  Ndb_split_string_address_port
    (lit "host:123456789" ++ NUL :: []) (buf 16) 16 (buf 8) 8 =
  Ok ((-1)%Z, buf 16, buf 8)
  /\
  Ndb_split_string_address_port
    (lit "2001:db8::1" ++ NUL :: []) (buf 8) 8 (buf 8) 8 =
  Ok ((-1)%Z, buf 8, buf 8).
Proof.
  split.
  - refine (@split_plain_truncation_fails (lit "host:123456789") []
              (buf 16) (buf 8) 16 8 _ _ (or_introl (conj eq_refl _))).
    + literal.
    + intros t; cbv; discriminate.
    + right; cbv; lia.
  - refine (@split_plain_truncation_fails (lit "2001:db8::1") []
              (buf 8) (buf 8) 8 8 _ _ (or_intror (conj _ _))).
    + literal.
    + intros t; cbv; discriminate.
    + cbv; discriminate.
    + cbv; lia.
Defined.

(** X9. "[host]" with the string ending behind ']': the service check
    takes the length of the string [g] that lies behind the terminator
    of the input.  The call returns 0, with the host and an empty
    service, exactly when the host is shorter than hostlen, [g] is
    shorter than servlen and the host holds a colon; otherwise -1 and
    nothing written. *)
Theorem split_bracket_at_end_of_string
  {h g tail host serv : list ascii} {hostlen servlen : nat} :
  no_nul h -> no_nul g -> ~ In "]"%char h ->
  hostlen <= length host -> servlen <= length serv ->
  Ndb_split_string_address_port
    (("["%char :: h ++ ["]"%char]) ++ NUL :: g ++ NUL :: tail)
    host hostlen serv servlen =
  if (length h <? hostlen) && (length g <? servlen) && has ":" h
  then Ok (0%Z, h ++ NUL :: skipn (S (length h)) host, NUL :: skipn 1 serv)
  else Ok ((-1)%Z, host, serv).
Proof. exact split_bracket_eos. Qed.

Lemma split_bracket_at_end_of_string_witness :
  Ndb_split_string_address_port
    (("["%char :: lit "fe80::1" ++ ["]"%char]) ++ NUL :: lit "old" ++
     NUL :: [])
    (buf 16) 16 (buf 8) 8 =
  Ok (0%Z, lit "fe80::1" ++ NUL :: buf 8, NUL :: buf 7)
  /\
  Ndb_split_string_address_port
    (("["%char :: lit "fe80::1" ++ ["]"%char]) ++ NUL ::
     lit "an older text" ++ NUL :: [])
    (buf 16) 16 (buf 8) 8 =
  Ok ((-1)%Z, buf 16, buf 8).
Proof.
  split.
  - refine (@split_bracket_at_end_of_string (lit "fe80::1") (lit "old") []
              (buf 16) (buf 8) 16 8 _ _ _ _ _);
      first [literal | cbv; lia].
  - refine (@split_bracket_at_end_of_string (lit "fe80::1")
              (lit "an older text") [] (buf 16) (buf 8) 16 8 _ _ _ _ _);
      first [literal | cbv; lia].
Defined.

Lemma split_plain_total
  {s host serv : list ascii} {hostlen servlen : nat} :
  no_nul s -> (forall t, s <> "["%char :: t) ->
  hostlen <= length host -> servlen <= length serv -> 0 < servlen ->
  exists r, forall tail,
    Ndb_split_string_address_port (s ++ NUL :: tail) host hostlen serv servlen
    = Ok r.
Proof.
  intros Hs Hb Hhost Hserv Hpos.
  destruct (Nat.eq_dec (colons s) 1) as [H1|H1].
  - destruct (one_colon H1) as (h & p & -> & Hch & Hcp).
    pose proof Hs as Hs'.
    apply no_nul_app in Hs'; destruct Hs' as [Hh Hp].
    apply no_nul_cons in Hp; destruct Hp as [_ Hp].
    destruct (lt_dec (length h) hostlen) as [Hhl|Hhl];
      [destruct (lt_dec (length p) servlen) as [Hsl|Hsl]|].
    + eexists; intros tail.
      exact (split_single_colon Hh Hp Hch Hcp Hb Hhl Hsl Hhost Hserv).
    + eexists; intros tail.
      apply (split_single_colon_truncated Hh Hp Hch Hcp Hb); lia.
    + eexists; intros tail.
      apply (split_single_colon_truncated Hh Hp Hch Hcp Hb); lia.
  - destruct (lt_dec (length s) hostlen) as [Hhl|Hhl].
    + destruct (not_one_colon H1) as [Hnone | (h & p1 & p2 & -> & Hch & Hcp)].
      * eexists; intros tail.
        exact (split_no_colon Hs Hnone Hb Hhl Hpos Hhost Hserv).
      * eexists; intros tail.
        exact (split_many_colons Hs Hch Hcp Hb Hhl Hpos Hhost Hserv).
    + eexists; intros tail.
      apply (split_whole_truncated Hs Hb H1); lia.
Qed.

Lemma split_bracket_total
  {t host serv : list ascii} {hostlen servlen : nat} :
  no_nul t -> ~ bracket_at_end ("["%char :: t) ->
  hostlen <= length host -> servlen <= length serv ->
  exists r, forall tail,
    Ndb_split_string_address_port
      (("["%char :: t) ++ NUL :: tail) host hostlen serv servlen = Ok r.
Proof.
  intros Ht Hend Hhost Hserv.
  destruct (in_dec ascii_dec "]"%char t) as [Hin|Hnone].
  2:{ eexists; intros tail; exact (split_bracket_unclosed Ht Hnone). }
  destruct (first_occurrence Hin) as (h & a & -> & Hh).
  apply no_nul_app in Ht; destruct Ht as [Hhn Ha].
  apply no_nul_cons in Ha; destruct Ha as [_ Ha].
  destruct a as [|c p].
  - elim Hend; now exists h.
  - apply no_nul_cons in Ha; destruct Ha as [Hcn Hp].
    destruct (ascii_dec c ":"%char) as [->|Hc].
    + destruct ((length h <? hostlen) && (length p <? servlen) && has ":" h)
        eqn:Econd; eexists; intros tail;
        rewrite (split_bracket_port Hhn Hp Hh Hhost Hserv), Econd;
        reflexivity.
    + eexists; intros tail; exact (split_bracket_junk Hhn Hh Hc Hcn).
Qed.

(** X10. For every terminated input other than "[...]" with the closing
    bracket as last character, the call returns, and what it returns and
    writes is the same whatever lies in memory behind the terminator of
    the input. *)
Theorem split_ignores_memory_behind_input
  {s host serv : list ascii} {hostlen servlen : nat} :
  no_nul s -> ~ bracket_at_end s ->
  hostlen <= length host -> servlen <= length serv -> 0 < servlen ->
  exists r, forall tail,
    Ndb_split_string_address_port (s ++ NUL :: tail) host hostlen serv servlen
    = Ok r.
Proof.
  intros Hs Hend Hhost Hserv Hpos.
  destruct s as [|c t].
  - apply split_plain_total; auto; intros t; discriminate.
  - destruct (ascii_dec c "["%char) as [->|Hc].
    + apply no_nul_cons in Hs; destruct Hs as [_ Ht].
      now apply split_bracket_total.
    + apply split_plain_total; auto.
      intros t' [= E _]; congruence.
Qed.

Lemma split_ignores_memory_behind_input_witness :
  exists r, forall tail,
    Ndb_split_string_address_port
      (lit "[::1]:1186" ++ NUL :: tail) (buf 16) 16 (buf 8) 8 = Ok r.
Proof.
  refine (@split_ignores_memory_behind_input (lit "[::1]:1186")
            (buf 16) (buf 8) 16 8 _ _ _ _ _);
    try first [literal | cbv; lia].
  intros (h & E & _).
  injection E as E.
  apply (f_equal (@rev ascii)) in E.
  rewrite rev_app_distr in E; discriminate E.
Defined.

(** ** Ndb_combine_address_port *)

Lemma digit_is_plain {c : ascii} :
  is_digit c ->
  c <> NUL /\ c <> ":"%char /\ c <> "["%char /\ c <> "]"%char.
Proof.
  intros (d & Hd & ->).
  assert (Hcases : (d = 0 \/ d = 1 \/ d = 2 \/ d = 3 \/ d = 4 \/ d = 5 \/
                    d = 6 \/ d = 7 \/ d = 8 \/ d = 9)%Z) by lia.
  repeat destruct Hcases as [->|Hcases]; try subst d;
    repeat split; discriminate.
Qed.

Lemma print_digits_chars {fuel : nat} {n : Z} {acc : list ascii} :
  (forall c, In c acc -> is_digit c) ->
  forall c, In c (print_digits fuel n acc) -> is_digit c.
Proof.
  revert n acc; induction fuel as [|fuel IH]; intros n acc Hacc;
    cbn [print_digits]; auto.
  assert (Hacc' : forall c, In c (digit (n mod 10) :: acc) -> is_digit c).
  { intros c [<-|Hc]; auto.
    exists (n mod 10)%Z; split; auto.
    apply Z.mod_pos_bound; lia. }
  cbv zeta; destruct (n / 10 =? 0)%Z; [exact Hacc' | exact (IH _ _ Hacc')].
Qed.

Lemma print_d_chars {port : Z} {c : ascii} :
  In c (print_d port) -> is_digit c.
Proof. apply print_digits_chars; intros x []. Qed.

Lemma print_d_plain {port : Z} :
  no_nul (print_d port) /\ ~ In ":"%char (print_d port).
Proof.
  split; intros Hin; apply print_d_chars in Hin;
    apply digit_is_plain in Hin; tauto.
Qed.

Lemma in_firstn {A : Type} {x : A} {l : list A} {n : nat} :
  In x (firstn n l) -> In x l.
Proof.
  revert l; induction n as [|n IH]; intros l; cbn [firstn].
  - intros [].
  - destruct l as [|a l]; [intros []|].
    intros [->|H]; [now left|right; auto].
Qed.

(** With a terminated host the call is one snprintf of the text to
    render. *)
Lemma combine_is_snprintf
  {buf tail : list ascii} {bufsize : nat} {host : option (list ascii)}
  {port : Z} :
  match host with Some h => no_nul h | None => True end ->
  Ndb_combine_address_port buf bufsize
    (option_map (fun h => h ++ NUL :: tail) host) port =
  snprintf buf bufsize (endpoint_text host port).
Proof.
  destruct host as [h|]; cbn [option_map endpoint_text
    Ndb_combine_address_port]; intros Hh; [|reflexivity].
  rewrite (read_str_app Hh).
  destruct (has ":" h) eqn:Hcolon.
  - apply has_In in Hcolon.
    destruct (first_occurrence Hcolon) as (h1 & h2 & Eh & Hh1).
    assert (Hh1n : no_nul h1)
      by (rewrite Eh in Hh; now apply no_nul_app in Hh).
    assert (E : h ++ NUL :: tail = [] ++ h1 ++ ":"%char ::
                                   h2 ++ NUL :: tail)
      by (rewrite Eh; now rewrite <- app_assoc).
    now rewrite (strchr_at_found (k := 0) E eq_refl Hh1 Hh1n).
  - apply has_not_In in Hcolon.
    assert (E : h ++ NUL :: tail = [] ++ h ++ NUL :: tail) by reflexivity.
    now rewrite (strchr_at_absent (k := 0) E eq_refl Hcolon Hh colon_not_NUL).
Qed.

Lemma endpoint_text_no_nul {host : option (list ascii)} {port : Z} :
  match host with Some h => no_nul h | None => True end ->
  no_nul (endpoint_text host port).
Proof.
  pose proof (proj1 (@print_d_plain port)) as Hd.
  destruct host as [h|]; cbn [endpoint_text]; intros Hh.
  - destruct (has ":" h); repeat (apply no_nul_app; split); auto; literal.
  - apply no_nul_app; split; auto; literal.
Qed.

(** X11. The three renderings: "*:port" for a null host, "host:port"
    for a host without colon, "[host]:port" for a host with a colon,
    each followed by a NUL, when text and NUL fit bufsize; the cells
    behind are kept. *)
Theorem combine_address_port_renders
  {buf tail : list ascii} {bufsize : nat} {host : option (list ascii)}
  {port : Z} :
  match host with Some h => no_nul h | None => True end ->
  length (endpoint_text host port) < bufsize ->
  bufsize <= length buf ->
  Ndb_combine_address_port buf bufsize
    (option_map (fun h => h ++ NUL :: tail) host) port =
  Ok (endpoint_text host port ++
      NUL :: skipn (S (length (endpoint_text host port))) buf).
Proof. exact combine_renders. Qed.

Lemma combine_address_port_renders_witness :
  Ndb_combine_address_port (buf 24) 24 (Some (c_lit "fe80::1")) 1186 =
    Ok (lit "[fe80::1]:1186" ++ NUL :: buf 9)
  /\
  Ndb_combine_address_port (buf 24) 24 (Some (c_lit "myhost")) 65535 =
    Ok (lit "myhost:65535" ++ NUL :: buf 11)
  /\
  Ndb_combine_address_port (buf 24) 24 None 0 =
    Ok (lit "*:0" ++ NUL :: buf 20).
Proof.
  split; [|split].
  - refine (@combine_address_port_renders (buf 24) [] 24
              (Some (lit "fe80::1")) 1186 _ _ _);
      first [literal | cbv; lia].
  - refine (@combine_address_port_renders (buf 24) [] 24
              (Some (lit "myhost")) 65535 _ _ _);
      first [literal | cbv; lia].
  - refine (@combine_address_port_renders (buf 24) [] 24 None 0 I _ _);
      cbv; lia.
Defined.

(** X12. Ndb_combine_address_port with any buffer size: it always hands
    back the buffer; with bufsize 0 nothing is written, otherwise the
    buffer holds the first bufsize - 1 characters of the text and then a
    NUL; no cell at or behind offset bufsize is written. *)
Theorem combine_address_port_truncates
  {buf tail : list ascii} {bufsize : nat} {host : option (list ascii)}
  {port : Z} :
  match host with Some h => no_nul h | None => True end ->
  bufsize <= length buf ->
  exists out,
    Ndb_combine_address_port buf bufsize
      (option_map (fun h => h ++ NUL :: tail) host) port = Ok out /\
    (bufsize = 0 -> out = buf) /\
    (0 < bufsize ->
     c_str out = Some (firstn (bufsize - 1) (endpoint_text host port))) /\
    length out = length buf /\
    skipn bufsize out = skipn bufsize buf.
Proof.
  intros Hh Hle; rewrite (combine_is_snprintf Hh).
  unfold snprintf.
  destruct (Nat.eqb_spec bufsize 0) as [->|Hne].
  - exists buf; repeat split; auto; lia.
  - destruct (store buf 0 (firstn (bufsize - 1) (endpoint_text host port) ++
                           [NUL])) as [out|f] eqn:Est.
    + exists out; split; [reflexivity|].
      pose proof Est as Hfr; apply store_ok_frame in Hfr.
      destruct Hfr as (Hfit & Hlen & Hskip).
      rewrite length_app in Hfit, Hskip; cbn [length] in Hfit, Hskip.
      repeat split; auto; [lia| |].
      * intros _; rewrite store_0 in Est
          by (rewrite length_app; cbn [length]; lia).
        injection Est as <-; rewrite <- app_assoc; cbn [app].
        apply c_str_app; intros Hin; apply in_firstn in Hin.
        exact (endpoint_text_no_nul (port := port) Hh Hin).
      * apply Hskip; rewrite length_firstn; lia.
    + apply store_fault in Est.
      rewrite length_app, length_firstn in Est; cbn [length] in Est; lia.
Qed.

Lemma combine_address_port_truncates_witness :
  exists out,
    Ndb_combine_address_port (buf 12) 8 (Some (c_lit "fe80::1")) 1186
      = Ok out /\
    (8 = 0 -> out = buf 12) /\
    (0 < 8 -> c_str out = Some (lit "[fe80::")) /\
    length out = 12 /\
    skipn 8 out = buf 4.
Proof.
  refine (@combine_address_port_truncates (buf 12) [] 8
            (Some (lit "fe80::1")) 1186 _ _); first [literal | cbv; lia].
Defined.

(** X13. Splitting what Ndb_combine_address_port rendered gives back
    the host and the decimal text of the port, for every host without
    NUL and ']' that, when it has no colon, does not start with '[';
    provided the rendering fits its buffer and the two parts fit
    theirs. *)
Theorem split_of_combine
  {h tail buf host serv : list ascii} {bufsize hostlen servlen : nat}
  {port : Z} :
  no_nul h -> ~ In "]"%char h ->
  (has ":" h = false -> forall t, h <> "["%char :: t) ->
  length h < hostlen -> length (print_d port) < servlen ->
  hostlen <= length host -> servlen <= length serv ->
  length (endpoint_text (Some h) port) < bufsize -> bufsize <= length buf ->
  exists out host' serv',
    Ndb_combine_address_port buf bufsize (Some (h ++ NUL :: tail)) port
      = Ok out /\
    Ndb_split_string_address_port out host hostlen serv servlen
      = Ok (0%Z, host', serv') /\
    c_str host' = Some h /\
    c_str serv' = Some (print_d port).
Proof.
  intros Hh Hclose Hplain Hhl Hsl Hhost Hserv Hfit Hbuf.
  destruct (@print_d_plain port) as [Hdn Hdc].
  pose proof (combine_renders (buf := buf) (tail := tail) (host := Some h)
                (port := port) Hh Hfit Hbuf) as Hout.
  cbn [option_map] in Hout; rewrite Hout.
  do 3 eexists; split; [reflexivity|].
  cbn [endpoint_text] in *.
  destruct (has ":" h) eqn:Hcolon.
  - change (lit "[" ++ h ++ lit "]:" ++ print_d port)
      with ("["%char :: h ++ "]"%char :: ":"%char :: print_d port).
    rewrite (split_bracket_port Hh Hdn Hclose Hhost Hserv), Hcolon.
    replace (length h <? hostlen) with true
      by (symmetry; now apply Nat.ltb_lt).
    replace (length (print_d port) <? servlen) with true
      by (symmetry; now apply Nat.ltb_lt).
    cbn [andb]; split; [reflexivity|split].
    + now apply c_str_app.
    + now apply c_str_padded.
  - change (h ++ lit ":" ++ print_d port)
      with (h ++ ":"%char :: print_d port).
    assert (Hb : forall t, h ++ ":"%char :: print_d port <> "["%char :: t).
    { destruct h as [|c h']; cbn [app]; intros t E.
      - discriminate E.
      - injection E as -> _; now apply (Hplain eq_refl h'). }
    apply has_not_In in Hcolon.
    rewrite (split_single_colon Hh Hdn Hcolon Hdc Hb Hhl Hsl Hhost Hserv).
    split; [reflexivity|split].
    + now apply c_str_app.
    + now apply c_str_padded.
Qed.

Lemma split_of_combine_witness :
  (exists out host' serv',
     Ndb_combine_address_port (buf 24) 24 (Some (c_lit "fe80::1")) 1186
       = Ok out /\
     Ndb_split_string_address_port out (buf 16) 16 (buf 8) 8
       = Ok (0%Z, host', serv') /\
     c_str host' = Some (lit "fe80::1") /\
     c_str serv' = Some (lit "1186"))
  /\
  (exists out host' serv',
     Ndb_combine_address_port (buf 24) 24 (Some (c_lit "myhost")) 80
       = Ok out /\
     Ndb_split_string_address_port out (buf 16) 16 (buf 8) 8
       = Ok (0%Z, host', serv') /\
     c_str host' = Some (lit "myhost") /\
     c_str serv' = Some (lit "80")).
Proof.
  split.
  - refine (@split_of_combine (lit "fe80::1") [] (buf 24) (buf 16) (buf 8)
              24 16 8 1186 _ _ _ _ _ _ _ _ _);
      try first [literal | cbv; lia].
  - refine (@split_of_combine (lit "myhost") [] (buf 24) (buf 16) (buf 8)
              24 16 8 80 _ _ _ _ _ _ _ _ _);
      try first [literal | cbv; lia].
    all: intros _ t E; discriminate E.
Defined.

(** ** Ndb_inet_ntop *)

Lemma null_sentinel_length {n : nat} : 0 < n -> length (null_sentinel n) = n.
Proof.
  intros Hpos; unfold null_sentinel.
  rewrite length_app, length_firstn, repeat_length.
  change (length (lit "null")) with 4; lia.
Qed.

Lemma skipn_null_sentinel {n : nat} {r : list ascii} :
  0 < n -> skipn n (null_sentinel n ++ r) = r.
Proof.
  intros Hpos.
  rewrite <- (null_sentinel_length Hpos) at 1.
  apply skipn_length_app.
Qed.

(** X14. An address family other than AF_INET and AF_INET6: the buffer
    gets "null", cut to dst_size - 1 characters, and NUL up to dst_size;
    the cells behind dst_size are kept and getnameinfo is not asked. *)
Theorem inet_ntop_unknown_family
  {getnameinfo : sockaddr -> list ascii -> nat -> Z -> Z * list ascii}
  {af : Z} {src : list byte} {dst : list ascii} {dst_size : nat} :
  af <> AF_INET -> af <> AF_INET6 ->
  0 < dst_size -> dst_size <= length dst ->
  Ndb_inet_ntop getnameinfo af src dst dst_size =
    Ok (null_sentinel dst_size ++ skipn dst_size dst) /\
  c_str (null_sentinel dst_size ++ skipn dst_size dst) =
    Some (firstn (dst_size - 1) (lit "null")) /\
  skipn dst_size (null_sentinel dst_size ++ skipn dst_size dst) =
    skipn dst_size dst.
Proof.
  intros H4 H6 Hpos Hle; split; [|split].
  - exact (inet_ntop_other_family H4 H6 Hpos Hle).
  - exact (c_str_null_sentinel Hpos).
  - exact (skipn_null_sentinel Hpos).
Qed.

Lemma inet_ntop_unknown_family_witness :
  Ndb_inet_ntop numeric_host AF_UNSPEC [x7f; x00; x00; x01] (buf 6) 3 =
    Ok (null_sentinel 3 ++ skipn 3 (buf 6)) /\
  c_str (null_sentinel 3 ++ skipn 3 (buf 6)) = Some (lit "nu") /\
  skipn 3 (null_sentinel 3 ++ skipn 3 (buf 6)) = buf 3.
Proof.
  refine (@inet_ntop_unknown_family numeric_host AF_UNSPEC
            [x7f; x00; x00; x01] (buf 6) 3 _ _ _ _);
    first [discriminate | cbv; lia].
Defined.

(** X15. AF_INET: the four address bytes go to getnameinfo as a
    sockaddr_in with port 0; when it returns 0 the buffer is handed back
    as getnameinfo left it, otherwise it gets the "null" sentinel. *)
Theorem inet_ntop_inet_renders_or_null
  {getnameinfo : sockaddr -> list ascii -> nat -> Z -> Z * list ascii}
  {src : list byte} {dst dst' : list ascii} {dst_size : nat} {ret : Z} :
  0 < dst_size -> 4 <= length src ->
  getnameinfo
    (SockaddrIn {| sin_family := AF_INET;
                   sin_port := 0;
                   sin_addr := {| s_addr := firstn 4 src |} |})
    dst dst_size NI_NUMERICHOST = (ret, dst') ->
  dst_size <= length dst' ->
  exists out,
    Ndb_inet_ntop getnameinfo AF_INET src dst dst_size = Ok out /\
    (ret = 0%Z -> out = dst') /\
    (ret <> 0%Z -> c_str out = Some (firstn (dst_size - 1) (lit "null"))).
Proof.
  intros Hpos Hsrc Hrender Hle.
  rewrite (inet_ntop_inet Hpos Hsrc Hrender Hle).
  destruct (Z.eqb_spec ret 0) as [->|Hne]; eexists; split; try reflexivity;
    split; intros H; try congruence.
  exact (c_str_null_sentinel Hpos).
Qed.

Lemma inet_ntop_inet_renders_or_null_witness :
  (exists out,
     Ndb_inet_ntop numeric_host AF_INET [xc0; xa8; x00; x0a] (buf 16) 16
       = Ok out /\
     (0%Z = 0%Z -> out = lit "192.168.0.10" ++ NUL :: buf 3) /\
     (0%Z <> 0%Z -> c_str out = Some (firstn (16 - 1) (lit "null"))))
  /\
  (exists out,
     Ndb_inet_ntop numeric_host AF_INET [xc0; xa8; x00; x0a] (buf 8) 8
       = Ok out /\
     (EAI_OVERFLOW = 0%Z -> out = buf 8) /\
     (EAI_OVERFLOW <> 0%Z -> c_str out = Some (lit "null"))).
Proof.
  split.
  - refine (@inet_ntop_inet_renders_or_null numeric_host
              [xc0; xa8; x00; x0a] (buf 16) _ 16 0%Z _ _ eq_refl _);
      cbv; lia.
  - refine (@inet_ntop_inet_renders_or_null numeric_host
              [xc0; xa8; x00; x0a] (buf 8) _ 8 EAI_OVERFLOW _ _ eq_refl _);
      cbv; lia.
Defined.

Lemma nat_of_ascii_inj {c d : ascii} :
  nat_of_ascii c = nat_of_ascii d -> c = d.
Proof.
  intros H; rewrite <- (ascii_nat_embedding c), <- (ascii_nat_embedding d).
  now rewrite H.
Qed.

Lemma strncmp_prefix {p t rest : list ascii} {k : nat} :
  no_nul p ->
  exists z,
    strncmp_from (p ++ [NUL]) (t ++ NUL :: rest) k (length p) = Ok z /\
    (z =? 0)%Z = starts_with p t.
Proof.
  revert t k; induction p as [|c p IH]; intros t k Hp.
  - exists 0%Z; split; reflexivity.
  - apply no_nul_cons in Hp; destruct Hp as [Hc Hp].
    assert (Ec : Ascii.eqb c NUL = false) by now apply Ascii.eqb_neq.
    destruct t as [|d t]; cbn [app length strncmp_from starts_with].
    + rewrite Ec; eexists; split; [reflexivity|].
      apply Z.eqb_neq; intros H.
      apply Hc, nat_of_ascii_inj; change (nat_of_ascii NUL) with 0 in *; lia.
    + destruct (Ascii.eqb_spec c d) as [<-|Hne]; cbn [andb].
      * rewrite Ec; apply IH; exact Hp.
      * eexists; split; [reflexivity|].
        apply Z.eqb_neq; intros H.
        apply Hne, nat_of_ascii_inj; lia.
Qed.

Lemma starts_with_split {p t : list ascii} :
  starts_with p t = true -> t = p ++ skipn (length p) t.
Proof.
  revert t; induction p as [|c p IH]; intros t; cbn; auto.
  destruct t as [|d t]; [discriminate|].
  intros H; apply andb_prop in H; destruct H as [E H].
  apply Ascii.eqb_eq in E; subst d; f_equal; auto.
Qed.

(** The AF_INET6 case when getnameinfo leaves a terminated string [t] in
    the buffer, whatever it returns. *)
Lemma inet_ntop_inet6_terminated
  {getnameinfo : sockaddr -> list ascii -> nat -> Z -> Z * list ascii}
  {src : list byte} {dst t rest : list ascii} {dst_size : nat} {ret : Z} :
  0 < dst_size -> 16 <= length src -> no_nul t ->
  getnameinfo (numeric_sockaddr_in6 (firstn 16 src)) dst dst_size
    NI_NUMERICHOST = (ret, t ++ NUL :: rest) ->
  dst_size <= length (t ++ NUL :: rest) ->
  exists out,
    Ndb_inet_ntop getnameinfo AF_INET6 src dst dst_size = Ok out /\
    c_str out =
    Some (if (ret =? 0)%Z
          then if starts_with (lit "::ffff:") t then skipn 7 t else t
          else firstn (dst_size - 1) (lit "null")).
Proof.
  intros Hpos Hsrc Ht Hrender Hle.
  unfold Ndb_inet_ntop.
  replace (dst_size =? 0) with false by (symmetry; apply Nat.eqb_neq; lia).
  cbn [Z.eqb Pos.eqb AF_INET AF_INET6].
  rewrite (memcpy_fresh Hsrc); cbn [bind].
  unfold numeric_sockaddr_in6 in Hrender; rewrite Hrender.
  change (strlen (c_lit "::ffff:") 0) with (Ok (A := nat) 7); cbn [bind].
  assert (Hpre : no_nul (lit "::ffff:")) by literal.
  destruct (@strncmp_prefix (lit "::ffff:") t rest 0 Hpre) as (z & Ez & Hz).
  unfold strncmp.
  change (c_lit "::ffff:") with (lit "::ffff:" ++ [NUL]).
  change 7 with (length (lit "::ffff:")) at 1.
  rewrite Ez; cbn [bind]; rewrite Hz.
  destruct (starts_with (lit "::ffff:") t) eqn:Est.
  - pose proof (starts_with_split Est) as Et.
    change (length (lit "::ffff:")) with 7 in Et.
    set (r := skipn 7 t) in *.
    assert (Hr : no_nul r)
      by (rewrite Et in Ht; now apply no_nul_app in Ht).
    assert (Elen : strlen (t ++ NUL :: rest) 0 = Ok (7 + length r)).
    { rewrite (strlen_at (before := []) (s := t) (tail := rest) (k := 0));
        auto.
      rewrite Et at 1; now rewrite length_app. }
    rewrite Elen; cbn [bind].
    assert (Eobj : t ++ NUL :: rest = lit "::ffff:" ++ r ++ NUL :: rest)
      by (rewrite Et at 1; now rewrite <- app_assoc).
    rewrite Eobj in *.
    rewrite (memmove_to_front (pre := lit "::ffff:") (k := 7) eq_refl);
      cbn [bind].
    destruct (ret =? 0)%Z; cbn [negb bind].
    + eexists; split; [reflexivity|now apply c_str_app].
    + rewrite sentinel_written; auto.
      * eexists; split; [reflexivity|exact (c_str_null_sentinel Hpos)].
      * rewrite length_app in *; cbn [length] in *.
        rewrite length_skipn, !length_app; cbn [length].
        rewrite length_app in Hle; cbn [length] in Hle; lia.
  - cbn [bind]; destruct (ret =? 0)%Z; cbn [negb bind].
    + eexists; split; [reflexivity|now apply c_str_app].
    + rewrite sentinel_written; auto.
      eexists; split; [reflexivity|exact (c_str_null_sentinel Hpos)].
Qed.

(** X16. AF_INET6, when getnameinfo leaves a terminated string in the
    buffer: on return code 0 the string handed back is that string,
    without its first seven characters when these are "::ffff:"; on any
    other return code it is "null", cut to dst_size - 1 characters. *)
Theorem inet_ntop_inet6_renders_or_null
  {getnameinfo : sockaddr -> list ascii -> nat -> Z -> Z * list ascii}
  {src : list byte} {dst t rest : list ascii} {dst_size : nat} {ret : Z} :
  0 < dst_size -> 16 <= length src -> no_nul t ->
  getnameinfo (numeric_sockaddr_in6 (firstn 16 src)) dst dst_size
    NI_NUMERICHOST = (ret, t ++ NUL :: rest) ->
  dst_size <= length (t ++ NUL :: rest) ->
  exists out,
    Ndb_inet_ntop getnameinfo AF_INET6 src dst dst_size = Ok out /\
    c_str out =
    Some (if (ret =? 0)%Z
          then if starts_with (lit "::ffff:") t then skipn 7 t else t
          else firstn (dst_size - 1) (lit "null")).
Proof. exact inet_ntop_inet6_terminated. Qed.

Lemma inet_ntop_inet6_renders_or_null_witness :
  (exists out,
     Ndb_inet_ntop numeric_host AF_INET6 (v4mapped [x0a; x00; x00; x01])
       (buf 24) 24 = Ok out /\
     c_str out =
     Some (if (0 =? 0)%Z
           then if starts_with (lit "::ffff:") (lit "::ffff:10.0.0.1")
                then skipn 7 (lit "::ffff:10.0.0.1")
                else lit "::ffff:10.0.0.1"
           else firstn (24 - 1) (lit "null")))
  /\
  (exists out,
     Ndb_inet_ntop numeric_host AF_INET6 (v4mapped [x0a; x00; x00; x01])
       (lit "old" ++ NUL :: buf 4) 8 = Ok out /\
     c_str out =
     Some (if (EAI_OVERFLOW =? 0)%Z
           then if starts_with (lit "::ffff:") (lit "old")
                then skipn 7 (lit "old")
                else lit "old"
           else firstn (8 - 1) (lit "null"))).
Proof.
  split.
  - refine (@inet_ntop_inet6_renders_or_null numeric_host
              (v4mapped [x0a; x00; x00; x01]) (buf 24)
              (lit "::ffff:10.0.0.1") (buf 8) 24 0%Z _ _ _ eq_refl _);
      first [literal | cbv; lia].
  - refine (@inet_ntop_inet6_renders_or_null numeric_host
              (v4mapped [x0a; x00; x00; x01]) (lit "old" ++ NUL :: buf 4)
              (lit "old") (buf 4) 8 EAI_OVERFLOW _ _ _ eq_refl _);
      first [literal | cbv; lia].
Defined.

(** ** Ndb_check_socket_hup *)

Lemma testbit_below_32 {a n : Z} :
  (0 <= a < 32)%Z -> (5 <= n)%Z -> Z.testbit a n = false.
Proof.
  intros Ha Hn.
  destruct (Z.eq_dec a 0) as [->|Hne]; [apply Z.bits_0|].
  apply Z.bits_above_log2; [lia|].
  apply Z.lt_le_trans with 5%Z; [|exact Hn].
  apply Z.log2_lt_pow2; [lia|]; change (2 ^ 5)%Z with 32%Z; lia.
Qed.

Lemma land_hup_err {r : Z} :
  Z.land r (Z.lor POLLHUP POLLERR) =
  ((if Z.testbit r 3 then 8 else 0) + (if Z.testbit r 4 then 16 else 0))%Z.
Proof.
  change (Z.lor POLLHUP POLLERR) with 24%Z.
  apply Z.bits_inj'; intros n Hn.
  rewrite Z.land_spec.
  destruct (Z_lt_le_dec n 5) as [Hlt|Hge].
  - assert (Hcases : (n = 0 \/ n = 1 \/ n = 2 \/ n = 3 \/ n = 4)%Z) by lia.
    destruct (Z.testbit r 3) eqn:E3, (Z.testbit r 4) eqn:E4;
      repeat destruct Hcases as [->|Hcases]; try subst n;
      rewrite ?E3, ?E4; cbn; rewrite ?andb_false_r; reflexivity.
  - rewrite (@testbit_below_32 24 n) by lia.
    rewrite andb_false_r; symmetry; apply testbit_below_32; [|lia].
    destruct (Z.testbit r 3), (Z.testbit r 4); lia.
Qed.

(** X17. The probe under HAVE_POLL asks poll about the descriptor of the
    socket with revents cleared and a zero timeout, and answers 1
    exactly when bit 3 (POLLERR) or bit 4 (POLLHUP) is set in the
    revents poll leaves; readable, writable and invalid-descriptor bits
    and the return code of poll do not count. *)
Theorem check_socket_hup_poll_bits
  {poll : pollfd -> Z -> Z * pollfd} {sock : ndb_socket_t} :
  Ndb_check_socket_hup_poll poll sock =
  let r := revents (snd (poll {| pfd_fd := fd sock;
                                 events := 53;
                                 revents := 0 |} 0%Z)) in
  if Z.testbit r 3 || Z.testbit r 4 then 1%Z else 0%Z.
Proof.
  rewrite check_socket_hup_poll_flags; cbv zeta.
  change (Z.lor (Z.lor (Z.lor POLLHUP POLLIN) POLLOUT) POLLNVAL) with 53%Z.
  rewrite land_hup_err.
  destruct (Z.testbit _ 3), (Z.testbit _ 4); reflexivity.
Qed.

(** X18. The probe without HAVE_POLL.  On a build that is not for
    Windows and for a descriptor inside the fd_set (0 <= fd <
    FD_SETSIZE), select is called with nfds = fd + 1; under _WIN32 it is
    called with nfds = 1.  In both cases the three sets hold just this
    descriptor and the timeout is zero, and the answer is 1 when select
    fails, when the descriptor is in the error set select leaves, when
    getsockopt(SO_ERROR) fails or when the pending error is not 0; it is
    0 otherwise.  The read and write sets do not count. *)
Theorem check_socket_hup_select_result
  {select : Z -> fd_set -> fd_set -> fd_set -> Z ->
            Z * (fd_set * fd_set * fd_set)}
  {ndb_getsockopt : ndb_socket_t -> Z -> Z -> Z -> Z * Z}
  {WIN32 : bool} {sock : ndb_socket_t} :
  WIN32 = true \/ (0 <= fd sock < FD_SETSIZE false)%Z ->
  Ndb_check_socket_hup_select select ndb_getsockopt WIN32 sock =
  let nfds := if WIN32 then 1%Z else (fd sock + 1)%Z in
  let sel := select nfds [fd sock] [fd sock] [fd sock] 0%Z in
  let opt := ndb_getsockopt sock SOL_SOCKET SO_ERROR 0%Z in
  Ok (if (fst sel <? 0)%Z
         || existsb (Z.eqb (fd sock)) (snd (snd sel))
         || negb (fst opt =? 0)%Z
         || negb (snd opt =? 0)%Z
      then 1%Z else 0%Z).
Proof.
  intros Hdef.
  assert (Hdef' : WIN32 = true \/ in_fd_set_range (fd sock) = true).
  { destruct Hdef as [H|H]; [now left|right].
    unfold in_fd_set_range; apply andb_true_intro; split;
      [apply Z.leb_le | apply Z.ltb_lt]; lia. }
  rewrite (check_socket_hup_select_conservative Hdef'); cbv zeta.
  unfold ndb_socket_nfds.
  destruct WIN32; [reflexivity|].
  destruct Hdef as [H|H]; [discriminate H|].
  destruct (Z.gtb_spec (fd sock) 0) as [Hgt|Hle]; [reflexivity|].
  assert (E : fd sock = 0%Z) by lia.
  rewrite E; reflexivity.
Qed.

Lemma check_socket_hup_select_result_witness :
  Ndb_check_socket_hup_select select_idle getsockopt_idle false {| fd := 3 |}
    = Ok 0%Z
  /\
  Ndb_check_socket_hup_select select_idle getsockopt_idle true
    {| fd := 70000 |} = Ok 0%Z.
Proof.
  split.
  - apply (@check_socket_hup_select_result select_idle getsockopt_idle
             false {| fd := 3 |}).
    right; cbv; split; [discriminate | reflexivity].
  - apply (@check_socket_hup_select_result select_idle getsockopt_idle
             true {| fd := 70000 |}).
    left; reflexivity.
Defined.
